(** * Preset pipeline: line additions, preset import and the logger

    A shallow embedding of three pieces of the preset command line tool:

    - [EditHandler.performLineAddition] (src/Handlers/EditHandler.ts), the
      anchor-relative line insertion;
    - [ModuleImporter.findConfiguration] and
      [ModuleImporter.evaluateConfiguration], the discovery and the isolated
      evaluation of a preset script;
    - [Logger.exit].

    JavaScript strings are modelled as [string]; an exception is an explicit
    [Throw] outcome of the [result] type below. *)

From Stdlib Require Import ZArith Lia Ascii String List.
From stdpp Require Import base option list strings gmap.

Local Open Scope string_scope.
Local Open Scope list_scope.
Local Open Scope Z_scope.

(** ** Outcomes of fallible code *)

Inductive result (E A : Type) : Type :=
| Ok (a : A)
| Throw (e : E).

Arguments Ok {E A} a.
Arguments Throw {E A} e.

Definition bind {E A B} (r : result E A) (k : A -> result E B) : result E B :=
  match r with
  | Ok a => k a
  | Throw e => Throw e
  end.

Notation "'try!' x ':=' r 'in' k" := (bind r (fun x => k))
  (at level 10, x name, r at level 100, k at level 200).

(** [Array.prototype.forEach] whose callback may throw: the first exception
    aborts the traversal. *)
Fixpoint mapM {E A B} (f : A -> result E B) (l : list A) : result E (list B) :=
  match l with
  | [] => Ok []
  | x :: xs => try! y := f x in try! ys := mapM f xs in Ok (y :: ys)
  end.

(** ** String primitives of the host language *)

Definition LF : ascii := "010"%char.
Definition CR : ascii := "013"%char.
Definition newline : string := String LF EmptyString.
Definition crlf : string := String CR (String LF EmptyString).
Definition tab : string := String "009"%char EmptyString.
Definition dquote : string := String "034"%char EmptyString.

(** [String.prototype.split] with a one-character separator: the pieces
    between the separators, the empty string giving one empty piece. *)
Fixpoint str_split (sep : ascii) (s : string) : list string :=
  match s with
  | EmptyString => [EmptyString]
  | String c rest =>
      if Ascii.eqb c sep then EmptyString :: str_split sep rest
      else match str_split sep rest with
           | [] => [String c EmptyString]
           | piece :: pieces => String c piece :: pieces
           end
  end.

(** [Array.prototype.join]. *)
Fixpoint arr_join (sep : string) (l : list string) : string :=
  match l with
  | [] => EmptyString
  | x :: rest =>
      match rest with
      | [] => x
      | _ :: _ => x +:+ sep +:+ arr_join sep rest
      end
  end.

Fixpoint repeat_string (s : string) (n : nat) : string :=
  match n with
  | O => EmptyString
  | S n' => s +:+ repeat_string s n'
  end.

Inductive JsError : Type :=
| RangeError.

(** [String.prototype.repeat]: a negative count raises a [RangeError]. *)
Definition str_repeat (s : string) (count : Z) : result JsError string :=
  if count <? 0 then Throw RangeError else Ok (repeat_string s (Z.to_nat count)).

(** [String.prototype.includes]. *)
Fixpoint is_prefix (p s : string) : bool :=
  match p, s with
  | EmptyString, _ => true
  | String _ _, EmptyString => false
  | String a p', String b s' => Ascii.eqb a b && is_prefix p' s'
  end.

Fixpoint includes (needle hay : string) : bool :=
  is_prefix needle hay ||
  match hay with
  | EmptyString => false
  | String _ hay' => includes needle hay'
  end.

(** Modelled from the spec: the whitespace prefix of a line (section 4.3,
    step 6), which is what the detect-indent package reports as [indent] for a
    text of one line: the leading run of spaces, or the leading run of tabs. *)
Fixpoint leading_run (c : ascii) (s : string) : string :=
  match s with
  | EmptyString => EmptyString
  | String d rest => if Ascii.eqb c d then String d (leading_run c rest) else EmptyString
  end.

Definition leadingWhitespace (line : string) : string :=
  match line with
  | EmptyString => EmptyString
  | String c _ =>
      if Ascii.eqb c " "%char then leading_run " "%char line
      else if Ascii.eqb c "009"%char then leading_run "009"%char line
      else EmptyString
  end.

(** ** The host environment of the edit handler

    What [performLineAddition] takes from outside the repository source: the
    preset type, regular expressions with [String.prototype.match] (for a
    pattern without the sticky flag, a pure test of the line), and the
    detect-indent package. *)
Class Host : Type := {
  Preset : Type;
  RegExp : Type;
  line_match : string -> RegExp -> bool;
  detectIndent : string -> string;
}.

Module EditHandler.

Section Engine.
Context {host : Host}.

(** Modelled from the spec: [Contextualized] values and [contextualizeValue]
    (section 4.1), a literal or a function of the current preset. *)
Inductive ContextAware (T : Type) : Type :=
| Literal (v : T)
| Callback (f : Preset -> T).

Arguments Literal {T} v.
Arguments Callback {T} f.

Definition contextualizeValue {T} (preset : Preset) (value : ContextAware T) : T :=
  match value with
  | Literal v => v
  | Callback f => f preset
  end.

Inductive Direction : Type := above | below.

(** [undefined | 'double' | number | string]; a number is an integer here. *)
Inductive Indent : Type :=
| IndentUnset
| IndentNumber (n : Z)
| IndentString (s : string).

Inductive OneOrMany (T : Type) : Type :=
| One (x : T)
| Many (xs : list T).

Arguments One {T} x.
Arguments Many {T} xs.

(** Modelled from the spec: [wrap], which normalizes a value or an array of
    values to a list (section 4.3, step 1). *)
Definition wrap {T} (value : OneOrMany T) : list T :=
  match value with
  | One x => [x]
  | Many xs => xs
  end.

(** [search] is [None] for a falsy value. *)
Record LineAddition : Type := {
  search : ContextAware (option RegExp);
  direction : ContextAware Direction;
  content : ContextAware (OneOrMany string);
  indent : ContextAware Indent;
  amountOfLinesToSkip : ContextAware Z;
}.

Definition is_above (d : Direction) : bool :=
  match d with above => true | below => false end.

(** [!additionIndent] *)
Definition falsy (additionIndent : Indent) : bool :=
  match additionIndent with
  | IndentUnset => true
  | IndentNumber n => n =? 0
  | IndentString s => String.eqb s ""
  end.

(** The callback of [orderedContentToAdd.forEach]: the line pushed for
    [lineToAdd]. *)
Definition indentedLine (additionIndent : Indent) (previousLine lineToAdd : string)
  : result JsError string :=
  let indent := detectIndent previousLine in
  if falsy additionIndent then Ok (indent +:+ lineToAdd)
  else
    match additionIndent with
    | IndentString s =>
        if String.eqb s "double" then
          try! doubled := str_repeat indent 2 in Ok (doubled +:+ lineToAdd)
        else Ok (s +:+ lineToAdd)
    | IndentNumber n =>
        try! spaces := str_repeat " " n in Ok (spaces +:+ lineToAdd)
    | IndentUnset => Ok (indent +:+ lineToAdd)
    end.

Record LoopState : Type := {
  finalLines : list string;
  previousLine : string;
  hasMatch : bool;
  amountOfLinesBeforeAdding : Z;
}.

(** One iteration of [for (const line of initialLines)]. *)
Definition iteration (re : RegExp) (additionIndent : Indent)
    (orderedContentToAdd : list string) (st : LoopState) (line : string)
  : result JsError LoopState :=
  let pushed := finalLines st ++ [line] in
  if negb (line_match line re) && negb (hasMatch st) then
    Ok {| finalLines := pushed; previousLine := line;
          hasMatch := hasMatch st;
          amountOfLinesBeforeAdding := amountOfLinesBeforeAdding st |}
  else if amountOfLinesBeforeAdding st >? 0 then
    Ok {| finalLines := pushed; previousLine := line;
          hasMatch := true;
          amountOfLinesBeforeAdding := amountOfLinesBeforeAdding st - 1 |}
  else
    try! added := mapM (indentedLine additionIndent line) orderedContentToAdd in
    Ok {| finalLines := pushed ++ added; previousLine := line;
          hasMatch := false;
          amountOfLinesBeforeAdding := amountOfLinesBeforeAdding st |}.

Fixpoint loop (re : RegExp) (additionIndent : Indent)
    (orderedContentToAdd : list string) (st : LoopState) (lines : list string)
  : result JsError LoopState :=
  match lines with
  | [] => Ok st
  | line :: rest =>
      try! st' := iteration re additionIndent orderedContentToAdd st line in
      loop re additionIndent orderedContentToAdd st' rest
  end.

(** [performLineAddition], one call on the content list as resolved at that
    call. [contentToAdd.reverse()] reverses the array in place, so after it
    [contentToAdd] and [orderedContentToAdd] name one array, of which only
    the length is read under the first name. The [debug] messages sent to the
    bus are left out: they do not enter the result. *)
Definition performLineAddition (preset : Preset) (text : string)
    (addition : LineAddition) : result JsError string :=
  let search := contextualizeValue preset (search addition) in
  let direction := contextualizeValue preset (direction addition) in
  let contentToAdd := wrap (contextualizeValue preset (content addition)) in
  let orderedContentToAdd :=
    if is_above direction then rev contentToAdd else contentToAdd in
  let additionIndent := contextualizeValue preset (indent addition) in
  let initialLines :=
    if is_above direction then rev (str_split LF text) else str_split LF text in
  let amount := contextualizeValue preset (amountOfLinesToSkip addition) in
  match search with
  | None => Ok text
  | Some re =>
      if (length contentToAdd =? 0)%nat then Ok text
      else
        try! st := loop re additionIndent orderedContentToAdd
                {| finalLines := []; previousLine := "";
                   hasMatch := false; amountOfLinesBeforeAdding := amount |}
                initialLines in
        Ok (if is_above direction
            then arr_join newline (rev (finalLines st))
            else arr_join newline (finalLines st))
  end.

(** The fields of an addition as [performLineAddition] resolves them. *)
Definition searchOf (preset : Preset) (a : LineAddition) : option RegExp :=
  contextualizeValue preset (search a).
Definition directionOf (preset : Preset) (a : LineAddition) : Direction :=
  contextualizeValue preset (direction a).
Definition contentOf (preset : Preset) (a : LineAddition) : list string :=
  wrap (contextualizeValue preset (content a)).
Definition indentOf (preset : Preset) (a : LineAddition) : Indent :=
  contextualizeValue preset (indent a).
Definition skipOf (preset : Preset) (a : LineAddition) : Z :=
  contextualizeValue preset (amountOfLinesToSkip a).

(** *** Reference functions for the scan

    [indent_ok] excludes the one indent whose [repeat] raises; under it
    [prefixOf] is the prefix given to every inserted line, [block] the lines
    inserted at an anchor, and [scan] the lines pushed for a list of lines,
    from the armed flag and the remaining budget. *)

Definition orient {T} (d : Direction) (l : list T) : list T :=
  if is_above d then rev l else l.

Definition indent_ok (additionIndent : Indent) : Prop :=
  match additionIndent with
  | IndentNumber n => 0 <= n
  | _ => True
  end.

Definition prefixOf (additionIndent : Indent) (anchor : string) : string :=
  if falsy additionIndent then detectIndent anchor
  else
    match additionIndent with
    | IndentString s =>
        if String.eqb s "double" then repeat_string (detectIndent anchor) 2 else s
    | IndentNumber n => repeat_string " " (Z.to_nat n)
    | IndentUnset => detectIndent anchor
    end.

Definition block (additionIndent : Indent) (contentToAdd : list string)
    (anchor : string) : list string :=
  map (String.append (prefixOf additionIndent anchor)) contentToAdd.

Fixpoint scan (re : RegExp) (additionIndent : Indent) (ordered : list string)
    (armed : bool) (budget : Z) (lines : list string) : list string :=
  match lines with
  | [] => []
  | line :: rest =>
      if negb (line_match line re) && negb armed then
        line :: scan re additionIndent ordered armed budget rest
      else if budget >? 0 then
        line :: scan re additionIndent ordered true (budget - 1) rest
      else
        line :: block additionIndent ordered line
             ++ scan re additionIndent ordered false budget rest
  end.

(** The lines written for one line of the file when every matching line is
    an anchor: the line itself, with the block after it ([below]) or before
    it ([above]) when it matches. *)
Definition withBlock (re : RegExp) (additionIndent : Indent)
    (contentToAdd : list string) (d : Direction) (line : string) : list string :=
  if line_match line re then
    if is_above d then block additionIndent contentToAdd line ++ [line]
    else line :: block additionIndent contentToAdd line
  else [line].

Definition no_match (re : RegExp) (lines : list string) : Prop :=
  Forall (fun line => line_match line re = false) lines.

(** [Inserted blk before lines out]: [out] is [lines] with, at some of its
    lines, the block [blk line] put immediately before or after that line. *)
Inductive Inserted (blk : string -> list string) (before : bool)
  : list string -> list string -> Prop :=
| Inserted_nil : Inserted blk before [] []
| Inserted_copy line rest out :
    Inserted blk before rest out ->
    Inserted blk before (line :: rest) (line :: out)
| Inserted_anchor line rest out :
    Inserted blk before rest out ->
    Inserted blk before (line :: rest)
      (if before then blk line ++ line :: out else line :: blk line ++ out).

End Engine.

Arguments Literal {host T} v.
Arguments Callback {host T} f.
Arguments One {T} x.
Arguments Many {T} xs.

End EditHandler.

(** A host for the worked examples: patterns are literal substrings. *)
Definition exampleHost : Host := {|
  Preset := unit;
  RegExp := string;
  line_match := fun line pattern => includes pattern line;
  detectIndent := leadingWhitespace;
|}.

Definition exampleAddition (pattern : string) (d : EditHandler.Direction)
    (lines : list string) (i : EditHandler.Indent) (skip : Z)
  : @EditHandler.LineAddition exampleHost :=
  let lit {T} (v : T) := @EditHandler.Literal exampleHost T v in
  {| EditHandler.search := lit (Some pattern);
     EditHandler.direction := lit d;
     EditHandler.content := lit (EditHandler.Many lines);
     EditHandler.indent := lit i;
     EditHandler.amountOfLinesToSkip := lit skip |}.

Definition nl (l : list string) : string := arr_join newline l.

(** ** The module importer (ModuleImporter) *)

(** A file system as the importer sees it: what a path names. *)
Inductive Node : Type :=
| RegularFile (contents : string)
| Directory.

(** Failures raised by the host: the file system, [JSON.parse], the
    transform to executable form, and the script run in the isolated context. *)
Inductive Failure : Type :=
| ENOENT (path : string)
| EISDIR (path : string)
| SyntaxError (text : string)
| TransformFailure (detail : string)
| ScriptFailure (detail : string).

(** What the importer takes from outside the repository source. [Value] is a
    value of the host language, [manifestPreset] is [JSON.parse] followed by
    the read of the [preset] property ([None] when it is absent or falsy). *)
Class ImporterHost : Type := {
  Value : Type;
  Code : Type;
  emptyObject : Value;
  hostRequire : Value;
  hostModule : Value;
  newPreset : Value;
  colorHelper : Value;
  magenta : string -> string;
  path_join : string -> string -> string;
  manifestPreset : string -> result Failure (option string);
  transformSync : string -> result Failure Code;
  runInContext : Code -> gmap string Value -> result Failure (gmap string Value);
}.

Module ModuleImporter.

(** Modelled from the spec: [ExecutionError] (section 7), one kind of error
    carrying a user-facing message, an optional full diagnostic trace and a
    halt flag, filled by its builder methods. *)
Record ExecutionError : Type := {
  message : string;
  stack : option Failure;
  stops : bool;
}.

Definition newExecutionError : ExecutionError :=
  {| message := ""; stack := None; stops := false |}.

Definition withMessage (m : string) (e : ExecutionError) : ExecutionError :=
  {| message := m; stack := stack e; stops := stops e |}.

Definition withoutStack (e : ExecutionError) : ExecutionError :=
  {| message := message e; stack := None; stops := stops e |}.

Definition withCompleteStack (error : Failure) (e : ExecutionError) : ExecutionError :=
  {| message := message e; stack := Some error; stops := stops e |}.

Definition stopsExecution (e : ExecutionError) : ExecutionError :=
  {| message := message e; stack := stack e; stops := true |}.

(** What a method of the importer can throw: a failure of the host as it
    is, or an [ExecutionError]. *)
Inductive Thrown : Type :=
| Raw (error : Failure)
| Execution (error : ExecutionError).

Definition raw {A} (r : result Failure A) : result Thrown A :=
  match r with
  | Ok a => Ok a
  | Throw e => Throw (Raw e)
  end.

Section Importer.
Context {host : ImporterHost}.
Variable fs : gmap string Node.

Definition existsSync (path : string) : bool :=
  match fs !! path with
  | Some _ => true
  | None => false
  end.

(** [fs.statSync(path).isFile()]: [statSync] throws for a path that does
    not exist. *)
Definition statSync_isFile (path : string) : result Failure bool :=
  match fs !! path with
  | Some (RegularFile _) => Ok true
  | Some Directory => Ok false
  | None => Throw (ENOENT path)
  end.

Definition readFileSync (path : string) : result Failure string :=
  match fs !! path with
  | Some (RegularFile contents) => Ok contents
  | Some Directory => Throw (EISDIR path)
  | None => Throw (ENOENT path)
  end.

Definition explicitFileMissing (presetPath : string) : ExecutionError :=
  stopsExecution (withoutStack (withMessage
    ("The specified configuration file does not exist (" +:+ magenta presetPath +:+ ").")
    newExecutionError)).

Definition configurationNotFound (directory : string) : ExecutionError :=
  stopsExecution (withoutStack (withMessage
    ("The configuration file could not be found (tried in " +:+ magenta directory +:+ ").")
    newExecutionError)).

Definition paths : list string := ["preset"; "src/preset"].
Definition extensions : list string := ["ts"; "js"; "mjs"; "cjs"].

(** The [files] array built by the two nested [forEach]. *)
Definition candidates (directory : string) : list string :=
  flat_map (fun file =>
              map (fun extension => path_join directory (file +:+ "." +:+ extension))
                  extensions)
           paths.

(** The block guarded by [fs.existsSync(packagePath)]: [Ok (Some p)] when it
    returns [p], [Ok None] when control falls through to the guess. *)
Definition specifiedConfiguration (directory : string)
  : result Thrown (option string) :=
  let packagePath := path_join directory "package.json" in
  if existsSync packagePath then
    try! text := raw (readFileSync packagePath) in
    try! preset := raw (manifestPreset text) in
    match preset with
    | Some preset =>
        let presetPath := path_join directory preset in
        try! isFile := raw (statSync_isFile presetPath) in
        if isFile then Ok (Some presetPath)
        else Throw (Execution (explicitFileMissing presetPath))
    | None => Ok None
    end
  else Ok None.

Definition findConfiguration (directory : string) : result Thrown string :=
  try! specified := specifiedConfiguration directory in
  match specified with
  | Some presetPath => Ok presetPath
  | None =>
      match List.find existsSync (candidates directory) with
      | Some file => Ok file
      | None => Throw (Execution (configurationNotFound directory))
      end
  end.

End Importer.

Section Evaluation.
Context {host : ImporterHost}.

(** The object given to [vm.createContext]. *)
Definition initialContext : gmap string Value :=
  <["exports" := emptyObject]>
    (<["require" := hostRequire]>
       (<["module" := hostModule]>
          (<["Preset" := newPreset]>
             (<["color" := colorHelper]> ∅)))).

Definition evaluationError (error : Failure) : ExecutionError :=
  stopsExecution (withCompleteStack error (withMessage
    "The preset could not be evaluated." newExecutionError)).

(** [evaluateConfiguration]: the value read back as [context.Preset], [None]
    when the script left no such property. *)
Definition evaluateConfiguration (script : string)
  : result Thrown (option Value) :=
  let attempt :=
    let context := initialContext in
    try! code := transformSync script in
    try! context' := runInContext code context in
    Ok (context' !! "Preset") in
  match attempt with
  | Ok preset => Ok preset
  | Throw error => Throw (Execution (evaluationError error))
  end.

End Evaluation.

End ModuleImporter.

(** ** The logger *)

Module Logger.

Inductive Level : Type := success | warn | fatal | info | error | debug.

Section Logger.
Variable Message : Type.

Record Entry : Type := {
  level : Level;
  message : Message;
  args : list string;
}.

(** The state of the logger: what [_logger.log] was given so far, and the
    two flags set by [configure]. *)
Record State : Type := {
  logged : list Entry;
  faking : bool;
  debugging : bool;
}.

(** A process that runs on, or has terminated with an exit status. *)
Inductive Process : Type :=
| Running (st : State)
| Exited (status : Z) (st : State).

Definition log (lvl : Level) (m : Message) (a : list string) (st : State) : State :=
  {| logged := logged st ++ [{| level := lvl; message := m; args := a |}];
     faking := faking st;
     debugging := debugging st |}.

Definition isFake (st : State) : bool := faking st.

Definition logSuccess (m : Message) (a : list string) (st : State) : Process :=
  Running (log success m a st).

Definition logWarn (m : Message) (a : list string) (st : State) : Process :=
  Running (log warn m a st).

Definition logFatal (m : Message) (a : list string) (st : State) : Process :=
  Running (log fatal m a st).

Definition logInfo (m : Message) (a : list string) (st : State) : Process :=
  Running (log info m a st).

Definition logDebug (m : Message) (a : list string) (st : State) : Process :=
  if negb (debugging st) then Running st else Running (log debug m a st).

(** [exit]: [this._logger.log('error', ...)] then [process.exit(0)]. *)
Definition exit (m : Message) (a : list string) (st : State) : Process :=
  let st' := log error m a st in
  Exited 0 st'.

Definition exitStatus (p : Process) : option Z :=
  match p with
  | Running _ => None
  | Exited status _ => Some status
  end.

Definition stateOf (p : Process) : State :=
  match p with
  | Running st => st
  | Exited _ st => st
  end.

End Logger.

Arguments level {Message} _.
Arguments message {Message} _.
Arguments args {Message} _.
Arguments logged {Message} _.
Arguments Running {Message} st.
Arguments Exited {Message} status st.
Arguments exit {Message} m a st.
Arguments exitStatus {Message} p.
Arguments stateOf {Message} p.
Arguments log {Message} lvl m a st.

End Logger.

(** ** A host for the worked examples of the importer

    Values are property lists; a script is transformed unless it holds the
    text [syntax error], and its run fails when it holds [throw], and
    otherwise records the script as the [source] of the builder. The manifest
    reader knows the two manifests used below: the empty object, and an object
    with the one property [preset]. *)
Fixpoint strip_prefix (p s : string) : option string :=
  match p, s with
  | EmptyString, _ => Some s
  | String _ _, EmptyString => None
  | String a p', String b s' => if Ascii.eqb a b then strip_prefix p' s' else None
  end.

Fixpoint until_quote (s : string) : option (string * string) :=
  match s with
  | EmptyString => None
  | String c rest =>
      if Ascii.eqb c "034"%char then Some (EmptyString, rest)
      else match until_quote rest with
           | Some (name, after) => Some (String c name, after)
           | None => None
           end
  end.

Definition exampleManifest (preset : string) : string :=
  "{" +:+ dquote +:+ "preset" +:+ dquote +:+ ":" +:+ dquote +:+ preset +:+ dquote +:+ "}".

Definition exampleManifestPreset (text : string) : result Failure (option string) :=
  if String.eqb text "{}" then Ok None
  else
    match strip_prefix ("{" +:+ dquote +:+ "preset" +:+ dquote +:+ ":" +:+ dquote) text with
    | Some rest =>
        match until_quote rest with
        | Some (name, after) =>
            if String.eqb after "}" then
              Ok (if String.eqb name "" then None else Some name)
            else Throw (SyntaxError text)
        | None => Throw (SyntaxError text)
        end
    | None => Throw (SyntaxError text)
    end.

Definition exampleImporter : ImporterHost := {|
  Value := list (string * string);
  Code := string;
  emptyObject := [];
  hostRequire := [("function", "require")];
  hostModule := [("object", "module")];
  newPreset := [];
  colorHelper := [("object", "color")];
  magenta := fun text => text;
  path_join := fun directory name => directory +:+ "/" +:+ name;
  manifestPreset := exampleManifestPreset;
  transformSync := fun script =>
    if includes "syntax error" script then Throw (TransformFailure script)
    else Ok script;
  runInContext := fun code context =>
    if includes "throw" code then Throw (ScriptFailure code)
    else Ok (alter (fun builder => builder ++ [("source", code)]) "Preset" context);
|}.

(** A preset directory whose manifest names a file that does not exist,
    next to a conventional [preset.ts]. *)
Definition missingOverride : gmap string Node :=
  <["/p/package.json" := RegularFile (exampleManifest "missing.ts")]>
    (<["/p/preset.ts" := RegularFile "Preset.setName('x')"]> ∅).

(** ** The edit handler on files (EditHandler.handle) *)

Module EditAction.

Section Handle.
Context {host : Host}.
Import EditHandler.

(** [path.join], and [fg.sync] with its fixed ignore list: the relative file
    names a pattern expands to under a directory of the file system. *)
Variable path_join : string -> string -> string.
Variable glob : gmap string Node -> string -> string -> list string.

(** An entry of [action.edition]: [None] for a nullish entry (skipped by
    [?.]); the function returns [None] for a nullish result. *)
Definition Edition : Type := option (string -> Preset -> option string).

Record Edit : Type := {
  preset : Preset;
  files : OneOrMany string;
  edition : list Edition;
  additions : list LineAddition;
}.

(** [content = edition?.(content, action.preset) ?? content] *)
Definition applyEdition (p : Preset) (text : string) (e : Edition) : string :=
  match e with
  | Some f =>
      match f text p with
      | Some replaced => replaced
      | None => text
      end
  | None => text
  end.

(** [action.edition.forEach(...)] *)
Definition applyEditions (p : Preset) (editions : list Edition) (text : string)
  : string :=
  fold_left (applyEdition p) editions text.

(** [for (const addition of action.additions)] *)
Fixpoint applyAdditions (p : Preset) (adds : list LineAddition) (text : string)
  : result JsError string :=
  match adds with
  | [] => Ok text
  | addition :: rest =>
      try! text' := performLineAddition p text addition in
      applyAdditions p rest text'
  end.

(** What one file's content becomes. *)
Definition editContent (action : Edit) (text : string) : result JsError string :=
  applyAdditions (preset action) (additions action)
    (applyEditions (preset action) (edition action) text).

(** The body of the loop over the file names: the file system after it, and
    whether it threw. A path that does not exist or is not a regular file is
    skipped; a throw happens before the write. The editions are functions
    that return, the read and the write of a regular file succeed, and the
    [debug] messages are left out. *)
Definition handleFile (action : Edit) (target : string)
    (fs : gmap string Node) (fileName : string)
  : gmap string Node * result JsError unit :=
  let filePath := path_join target fileName in
  match fs !! filePath with
  | Some (RegularFile text) =>
      match editContent action text with
      | Ok text' => (<[filePath := RegularFile text']> fs, Ok tt)
      | Throw e => (fs, Throw e)
      end
  | _ => (fs, Ok tt)
  end.

Fixpoint handleFiles (action : Edit) (target : string)
    (fileNames : list string) (fs : gmap string Node)
  : gmap string Node * result JsError unit :=
  match fileNames with
  | [] => (fs, Ok tt)
  | fileName :: rest =>
      match handleFile action target fs fileName with
      | (fs', Ok _) => handleFiles action target rest fs'
      | (fs', Throw e) => (fs', Throw e)
      end
  end.

(** [relativeFileNames]: every pattern expanded, on the file system as it is
    before the first edit. *)
Definition relativeFileNames (action : Edit) (target : string)
    (fs : gmap string Node) : list string :=
  flat_map (glob fs target) (wrap (files action)).

Definition handle (action : Edit) (target : string) (fs : gmap string Node)
  : gmap string Node * result JsError unit :=
  handleFiles action target (relativeFileNames action target fs) fs.

End Handle.

End EditAction.

(** ** The rest of the importer *)

(** [String.prototype.split(/\r\n|\r|\n/)]. *)
Fixpoint split_lines (s : string) : list string :=
  match s with
  | EmptyString => [EmptyString]
  | String c rest =>
      if Ascii.eqb c CR then
        match rest with
        | String d rest' =>
            if Ascii.eqb d LF then EmptyString :: split_lines rest'
            else EmptyString :: split_lines rest
        | EmptyString => EmptyString :: split_lines rest
        end
      else if Ascii.eqb c LF then EmptyString :: split_lines rest
      else match split_lines rest with
           | [] => [String c EmptyString]
           | piece :: pieces => String c piece :: pieces
           end
  end.

(** [s] holds the character [c]. *)
Fixpoint has_char (c : ascii) (s : string) : bool :=
  match s with
  | EmptyString => false
  | String d rest => Ascii.eqb c d || has_char c rest
  end.

Module ImporterScript.

Import ModuleImporter.

Section Script.
Context {host : ImporterHost}.

(** [getPackage().name] *)
Variable packageName : string.

Definition lineImports (line : string) : bool :=
  existsb (fun statement => includes statement line) ["import"; "require"].

Definition lineMentionsImportValue (line : string) : bool :=
  existsb (fun imp => includes imp line)
          [packageName; "color"; "@/api"; "use-preset"].

(** The callback of [filter]. *)
Definition keepsLine (line : string) : bool :=
  if lineImports line && lineMentionsImportValue line then false else true.

Definition removeSelfImportStatement (script : string) : string :=
  arr_join newline (List.filter keepsLine (split_lines script)).

(** [import]; the [debug] message is left out. *)
Definition import (fs : gmap string Node) (directory : string)
  : result Thrown (option Value) :=
  try! file := findConfiguration fs directory in
  try! script := raw (readFileSync fs file) in
  let sanitizedScript := removeSelfImportStatement script in
  evaluateConfiguration sanitizedScript.

End Script.

End ImporterScript.

(** A glob for the worked examples: a pattern is a file name. *)
Definition exampleGlob (fs : gmap string Node) (cwd pattern : string)
  : list string := [pattern].

Definition examplePathJoin (directory name : string) : string :=
  directory +:+ "/" +:+ name.

(** File systems for the worked examples of the importer. *)
Definition conventionalOnly : gmap string Node :=
  <["/p/src/preset.js" := RegularFile "Preset.setName('x')"]>
    (<["/p/src" := Directory]> ∅).

Definition directoryCandidate : gmap string Node :=
  <["/p/preset.ts" := Directory]>
    (<["/p/preset.js" := RegularFile "Preset.setName('x')"]> ∅).

Definition goodOverride : gmap string Node :=
  <["/p/package.json" := RegularFile (exampleManifest "custom.ts")]>
    (<["/p/custom.ts" := RegularFile "Preset.setName('custom')"]>
       (<["/p/preset.ts" := RegularFile "Preset.setName('x')"]> ∅)).

Definition directoryOverride : gmap string Node :=
  <["/p/package.json" := RegularFile (exampleManifest "lib")]>
    (<["/p/lib" := Directory]>
       (<["/p/preset.ts" := RegularFile "Preset.setName('x')"]> ∅)).

Definition brokenManifest : gmap string Node :=
  <["/p/package.json" := RegularFile "{preset"]>
    (<["/p/preset.ts" := RegularFile "Preset.setName('x')"]> ∅).

Definition emptyDirectory : gmap string Node :=
  <["/p/readme.md" := RegularFile "nothing here"]> ∅.

(** A line without carriage return and newline. *)
Definition clean_line (line : string) : Prop :=
  has_char CR line = false /\ has_char LF line = false.

(** What a path names: nothing, a regular file or a directory. *)
Definition node_kind (node : option Node) : option bool :=
  match node with
  | Some (RegularFile _) => Some true
  | Some Directory => Some false
  | None => None
  end.

(** Edit actions and a target directory for the worked examples. *)
Definition exampleEdit (names : list string) (indent : EditHandler.Indent)
  : @EditAction.Edit exampleHost :=
  {| EditAction.preset := (tt : @Preset exampleHost);
     EditAction.files := EditHandler.Many names;
     EditAction.edition := [None; Some (fun text _ => Some (text +:+ newline +:+ "end"))];
     EditAction.additions :=
       [exampleAddition "b" EditHandler.below ["X"] indent 0] |}.

Definition idleEdit (names : list string) : @EditAction.Edit exampleHost :=
  {| EditAction.preset := (tt : @Preset exampleHost);
     EditAction.files := EditHandler.Many names;
     EditAction.edition := [None; Some (fun _ _ => None)];
     EditAction.additions := [] |}.

Definition exampleTarget : gmap string Node :=
  <["/t/a.txt" := RegularFile "a"]>
    (<["/t/b.txt" := RegularFile "b"]>
       (<["/t/dir" := Directory]> ∅)).


(** * Properties *)

(** ** Splitting and joining *)

Lemma str_split_nonempty sep s : str_split sep s <> [].
Proof.
  destruct s as [|c rest]; simpl; [discriminate|].
  destruct (Ascii.eqb c sep); [discriminate|].
  destruct (str_split sep rest); discriminate.
Qed.

Lemma arr_join_cons sep x y rest :
  arr_join sep (x :: y :: rest) = x +:+ sep +:+ arr_join sep (y :: rest).
Proof. reflexivity. Qed.

Lemma join_split s : arr_join newline (str_split LF s) = s.
Proof.
  induction s as [|c rest IH]; [reflexivity|].
  simpl str_split. destruct (Ascii.eqb c LF) eqn:Hc.
  - apply Ascii.eqb_eq in Hc. subst c.
    pose proof (str_split_nonempty LF rest) as Hne.
    destruct (str_split LF rest) as [|piece pieces]; [congruence|].
    rewrite arr_join_cons, IH. reflexivity.
  - pose proof (str_split_nonempty LF rest) as Hne.
    destruct (str_split LF rest) as [|piece pieces]; [congruence|].
    destruct pieces as [|piece' pieces].
    + simpl in *. congruence.
    + rewrite arr_join_cons.
      rewrite <- IH. reflexivity.
Qed.

(** ** The scan of [performLineAddition] *)

Section EngineFacts.
Context {host : Host}.
Import EditHandler.

Lemma repeat_string_nonneg s n :
  0 <= n -> str_repeat s n = Ok (repeat_string s (Z.to_nat n)).
Proof.
  intros Hn. unfold str_repeat.
  destruct (n <? 0) eqn:E; [apply Z.ltb_lt in E; lia | reflexivity].
Qed.

Lemma indentedLine_ok ai anchor lineToAdd :
  indent_ok ai ->
  indentedLine ai anchor lineToAdd = Ok (prefixOf ai anchor +:+ lineToAdd).
Proof.
  intros Hok. unfold indentedLine, prefixOf.
  destruct (falsy ai) eqn:Hf; [reflexivity|].
  destruct ai as [|n|s]; simpl in *.
  - reflexivity.
  - rewrite repeat_string_nonneg by assumption. reflexivity.
  - destruct (String.eqb s "double"); reflexivity.
Qed.

Lemma mapM_indentedLine ai anchor ordered :
  indent_ok ai ->
  mapM (indentedLine ai anchor) ordered = Ok (block ai ordered anchor).
Proof.
  intros Hok. induction ordered as [|l ls IH]; [reflexivity|].
  simpl. rewrite indentedLine_ok by assumption. simpl.
  rewrite IH. reflexivity.
Qed.

Lemma loop_scan re ai ordered lines : forall st,
  indent_ok ai ->
  exists st',
    loop re ai ordered st lines = Ok st' /\
    finalLines st' =
      finalLines st
        ++ scan re ai ordered (hasMatch st) (amountOfLinesBeforeAdding st) lines.
Proof.
  induction lines as [|line rest IH]; intros st Hok.
  - exists st. split; [reflexivity|]. simpl. now rewrite app_nil_r.
  - simpl. unfold iteration.
    destruct (negb (line_match line re) && negb (hasMatch st)) eqn:Hskip.
    + simpl. edestruct IH as [st' [Hl Hf]]; [exact Hok|].
      exists st'. split; [exact Hl|]. rewrite Hf. simpl.
      now rewrite <- app_assoc.
    + destruct (amountOfLinesBeforeAdding st >? 0) eqn:Hb.
      * simpl. edestruct IH as [st' [Hl Hf]]; [exact Hok|].
        exists st'. split; [exact Hl|]. rewrite Hf. simpl.
        now rewrite <- app_assoc.
      * rewrite mapM_indentedLine by assumption. simpl.
        edestruct IH as [st' [Hl Hf]]; [exact Hok|].
        exists st'. split; [exact Hl|]. rewrite Hf. simpl.
        rewrite <- !app_assoc. reflexivity.
Qed.

Lemma performLineAddition_scan preset text addition re :
  let d := directionOf preset addition in
  let cs := contentOf preset addition in
  let ai := indentOf preset addition in
  let k := skipOf preset addition in
  searchOf preset addition = Some re ->
  cs <> [] ->
  indent_ok ai ->
  performLineAddition preset text addition =
    Ok (arr_join newline
          (orient d (scan re ai (orient d cs) false k
                       (orient d (str_split LF text))))).
Proof.
  intros d cs ai k Hs Hcs Hok. unfold performLineAddition.
  unfold searchOf in Hs. rewrite Hs.
  change (contextualizeValue preset (direction addition)) with d.
  change (wrap (contextualizeValue preset (content addition))) with cs.
  change (contextualizeValue preset (indent addition)) with ai.
  change (contextualizeValue preset (amountOfLinesToSkip addition)) with k.
  assert (Hlen : (length cs =? 0)%nat = false).
  { apply Nat.eqb_neq. destruct cs; simpl; congruence. }
  rewrite Hlen.
  edestruct (loop_scan re ai (if is_above d then rev cs else cs)
               (if is_above d then rev (str_split LF text) else str_split LF text))
    as [st' [Hl Hf]]; [exact Hok|].
  rewrite Hl. simpl in *. rewrite Hf. unfold orient.
  destruct (is_above d); reflexivity.
Qed.

Lemma scan_every_match re ai ordered budget lines :
  budget <= 0 ->
  scan re ai ordered false budget lines =
    flat_map (fun line =>
                if line_match line re then line :: block ai ordered line
                else [line]) lines.
Proof.
  intros Hb. induction lines as [|line rest IH]; [reflexivity|].
  simpl. destruct (line_match line re); simpl.
  - destruct (budget >? 0) eqn:E; [rewrite Z.gtb_ltb in E; apply Z.ltb_lt in E; lia|].
    now rewrite IH.
  - now rewrite IH.
Qed.

Lemma rev_flat_map_rev {A B} (f : A -> list B) l :
  rev (flat_map f (rev l)) = flat_map (fun x => rev (f x)) l.
Proof.
  induction l as [|x xs IH]; [reflexivity|].
  simpl. rewrite flat_map_app, rev_app_distr. simpl.
  rewrite app_nil_r, IH. reflexivity.
Qed.

Lemma block_rev ai cs anchor : block ai (rev cs) anchor = rev (block ai cs anchor).
Proof. unfold block. apply map_rev. Qed.

Lemma orient_scan_every_match re ai cs d budget lines :
  budget <= 0 ->
  orient d (scan re ai (orient d cs) false budget (orient d lines)) =
    flat_map (withBlock re ai cs d) lines.
Proof.
  intros Hb. rewrite scan_every_match by assumption.
  unfold orient, withBlock. destruct d; simpl.
  - rewrite rev_flat_map_rev. apply flat_map_ext. intros line.
    destruct (line_match line re); [|reflexivity].
    simpl. now rewrite block_rev, rev_involutive.
  - reflexivity.
Qed.

(** The armed phase: from a line on which the budget starts to run, the
    budget is spent on the following lines, whether they match or not. *)
Lemma scan_armed re ai ordered (n : nat) : forall lines anchor,
  lines !! n = Some anchor ->
  (forall line, lines !! 0%nat = Some line -> line_match line re = true) ->
  scan re ai ordered false (Z.of_nat n) lines =
    take (S n) lines ++ block ai ordered anchor
      ++ scan re ai ordered false 0 (drop (S n) lines).
Proof.
  assert (Harmed : forall (m : nat) lines anchor,
    lines !! m = Some anchor ->
    scan re ai ordered true (Z.of_nat m) lines =
      take (S m) lines ++ block ai ordered anchor
        ++ scan re ai ordered false 0 (drop (S m) lines)).
  { induction m as [|m IH]; intros lines anchor Hl.
    - destruct lines as [|l ls]; [discriminate|]. simpl in Hl. inversion Hl; subst.
      simpl. rewrite andb_false_r. reflexivity.
    - destruct lines as [|l ls]; [discriminate|]. simpl in Hl.
      cbn [scan]. rewrite andb_false_r.
      destruct (Z.of_nat (S m) >? 0) eqn:E; [|rewrite Z.gtb_ltb in E; apply Z.ltb_ge in E; lia].
      replace (Z.of_nat (S m) - 1) with (Z.of_nat m) by lia.
      rewrite (IH ls anchor Hl). reflexivity. }
  intros lines anchor Hl Hfirst.
  destruct lines as [|l ls]; [discriminate|].
  specialize (Hfirst l eq_refl).
  rewrite <- (Harmed n (l :: ls) anchor Hl).
  cbn [scan]. rewrite Hfirst. simpl. reflexivity.
Qed.

Lemma scan_budget_exceeds re ai ordered armed : forall lines budget,
  Z.of_nat (length lines) <= budget ->
  scan re ai ordered armed budget lines = lines.
Proof.
  intros lines. revert armed.
  induction lines as [|l ls IH]; intros armed budget Hb; [reflexivity|].
  simpl in Hb. cbn [scan].
  destruct (negb (line_match l re) && negb armed).
  - rewrite IH by lia. reflexivity.
  - destruct (budget >? 0) eqn:E; [|rewrite Z.gtb_ltb in E; apply Z.ltb_ge in E; lia].
    rewrite IH by lia. reflexivity.
Qed.

Lemma scan_app_no_match re ai ordered budget pre lines :
  no_match re pre ->
  scan re ai ordered false budget (pre ++ lines) =
    pre ++ scan re ai ordered false budget lines.
Proof.
  induction 1 as [|l ls Hl _ IH]; [reflexivity|].
  simpl. rewrite Hl. simpl. now rewrite IH.
Qed.

(** *** Insertions keep the lines of the file *)

Lemma Inserted_app blk before a a' b b' :
  Inserted blk before a a' -> Inserted blk before b b' ->
  Inserted blk before (a ++ b) (a' ++ b').
Proof.
  intros Ha Hb. induction Ha as [|line rest out _ IH|line rest out _ IH].
  - exact Hb.
  - simpl. now constructor.
  - pose proof (Inserted_anchor blk before line (rest ++ b) (out ++ b') IH) as H.
    destruct before; simpl in *; rewrite <- ?app_assoc; simpl; exact H.
Qed.

Lemma Inserted_rev blk lines out :
  Inserted (fun line => rev (blk line)) false (rev lines) out ->
  Inserted blk true lines (rev out).
Proof.
  intros H. rewrite <- (rev_involutive lines).
  remember (rev lines) as l eqn:El. clear El lines.
  induction H as [|line rest out _ IH|line rest out _ IH].
  - constructor.
  - simpl. apply Inserted_app; [exact IH|].
    apply (Inserted_copy blk true line [] []). constructor.
  - simpl. rewrite rev_app_distr, rev_involutive.
    rewrite <- app_assoc. apply Inserted_app; [exact IH|].
    apply (Inserted_anchor blk true line [] []). constructor.
Qed.

Lemma Inserted_ext blk blk' before lines out :
  (forall line, blk line = blk' line) ->
  Inserted blk before lines out -> Inserted blk' before lines out.
Proof.
  intros E. induction 1 as [|line rest out _ IH|line rest out _ IH].
  - constructor.
  - now constructor.
  - rewrite E. now apply Inserted_anchor.
Qed.

Lemma scan_Inserted re ai ordered lines : forall armed budget,
  Inserted (block ai ordered) false lines (scan re ai ordered armed budget lines).
Proof.
  induction lines as [|l ls IH]; intros armed budget; [constructor|].
  cbn [scan]. destruct (negb (line_match l re) && negb armed).
  - constructor. apply IH.
  - destruct (budget >? 0).
    + constructor. apply IH.
    + apply (Inserted_anchor (block ai ordered) false). apply IH.
Qed.

Lemma orient_scan_Inserted re ai cs d budget lines :
  Inserted (block ai cs) (is_above d) lines
    (orient d (scan re ai (orient d cs) false budget (orient d lines))).
Proof.
  unfold orient. destruct d; simpl.
  - apply Inserted_rev.
    apply (Inserted_ext (block ai (rev cs))); [apply block_rev|].
    apply scan_Inserted.
  - apply scan_Inserted.
Qed.

Lemma Inserted_sublist blk before lines out :
  Inserted blk before lines out -> sublist lines out.
Proof.
  induction 1 as [|line rest out _ IH|line rest out _ IH].
  - constructor.
  - now constructor.
  - destruct before.
    + apply sublist_inserts_l. now constructor.
    + constructor. now apply sublist_inserts_l.
Qed.

Lemma loop_no_match re ai ordered lines : forall st,
  hasMatch st = false ->
  no_match re lines ->
  exists st',
    loop re ai ordered st lines = Ok st' /\
    finalLines st' = finalLines st ++ lines.
Proof.
  induction lines as [|line rest IH]; intros st Hm Hno.
  - exists st. split; [reflexivity|]. now rewrite app_nil_r.
  - inversion Hno as [|? ? Hline Hrest]; subst.
    simpl. unfold iteration. rewrite Hline, Hm. simpl.
    edestruct IH as [st' [Hl Hf]]; [|exact Hrest|].
    2:{ exists st'. split; [exact Hl|]. rewrite Hf. simpl.
        now rewrite <- app_assoc. }
    reflexivity.
Qed.

Lemma flat_map_withBlock_no_match re ai cs d lines :
  no_match re lines -> flat_map (withBlock re ai cs d) lines = lines.
Proof.
  induction 1 as [|line rest Hl _ IH]; [reflexivity|].
  simpl. unfold withBlock at 1. rewrite Hl, IH. reflexivity.
Qed.

Lemma no_match_rev re lines : no_match re lines -> no_match re (rev lines).
Proof. apply List.Forall_rev. Qed.

Lemma orient_involutive {T} d (l : list T) : orient d (orient d l) = l.
Proof. unfold orient. destruct (is_above d); [apply rev_involutive | reflexivity]. Qed.

Lemma length_orient {T} d (l : list T) : length (orient d l) = length l.
Proof. unfold orient. destruct (is_above d); [apply length_rev | reflexivity]. Qed.

(** A budget that outlasts the file: nothing is inserted. *)
Lemma budget_exceeding_is_noop preset text addition re :
  searchOf preset addition = Some re ->
  contentOf preset addition <> [] ->
  indent_ok (indentOf preset addition) ->
  Z.of_nat (length (str_split LF text)) <= skipOf preset addition ->
  performLineAddition preset text addition = Ok text.
Proof.
  intros Hs Hcs Hok Hk.
  rewrite (performLineAddition_scan preset text addition re Hs Hcs Hok).
  rewrite scan_budget_exceeds by (now rewrite length_orient).
  now rewrite orient_involutive, join_split.
Qed.

Lemma performLineAddition_guard preset text addition :
  searchOf preset addition = None \/ contentOf preset addition = [] ->
  performLineAddition preset text addition = Ok text.
Proof.
  unfold searchOf, contentOf, performLineAddition. intros [Hs|Hc].
  - rewrite Hs. reflexivity.
  - rewrite Hc. destruct (contextualizeValue preset (search addition)); reflexivity.
Qed.

Lemma performLineAddition_no_match preset text addition re :
  searchOf preset addition = Some re ->
  no_match re (str_split LF text) ->
  performLineAddition preset text addition = Ok text.
Proof.
  intros Hs Hno.
  destruct (contentOf preset addition) as [|c cs] eqn:Hc.
  { apply performLineAddition_guard. now right. }
  unfold searchOf, contentOf in *. unfold performLineAddition. rewrite Hs, Hc.
  set (d := contextualizeValue preset (direction addition)).
  change (length (c :: cs) =? 0)%nat with false. cbv iota.
  match goal with
  | |- context [loop ?r ?ai ?ord ?st ?ls] =>
      destruct (loop_no_match r ai ord ls st eq_refl) as [st' [Hl Hf]]
  end.
  { destruct (is_above d); [apply no_match_rev|]; exact Hno. }
  rewrite Hl. simpl in *. rewrite Hf.
  destruct (is_above d); [rewrite rev_involutive|]; now rewrite join_split.
Qed.

Lemma every_match_result preset text addition re :
  searchOf preset addition = Some re ->
  contentOf preset addition <> [] ->
  skipOf preset addition <= 0 ->
  indent_ok (indentOf preset addition) ->
  performLineAddition preset text addition =
    Ok (arr_join newline
          (flat_map (withBlock re (indentOf preset addition)
                       (contentOf preset addition) (directionOf preset addition))
                    (str_split LF text))).
Proof.
  intros Hs Hcs Hk Hok.
  rewrite (performLineAddition_scan preset text addition re Hs Hcs Hok).
  now rewrite orient_scan_every_match.
Qed.

Lemma single_anchor_result preset text addition re pre anchor post :
  searchOf preset addition = Some re ->
  contentOf preset addition <> [] ->
  skipOf preset addition <= 0 ->
  indent_ok (indentOf preset addition) ->
  str_split LF text = pre ++ anchor :: post ->
  no_match re pre -> line_match anchor re = true -> no_match re post ->
  performLineAddition preset text addition =
    Ok (arr_join newline
          (pre ++ (if is_above (directionOf preset addition)
                   then block (indentOf preset addition)
                          (contentOf preset addition) anchor ++ [anchor]
                   else anchor :: block (indentOf preset addition)
                          (contentOf preset addition) anchor) ++ post)).
Proof.
  intros Hs Hcs Hk Hok Hsplit Hpre Hanchor Hpost.
  rewrite (every_match_result preset text addition re Hs Hcs Hk Hok).
  rewrite Hsplit, flat_map_app. simpl.
  rewrite !flat_map_withBlock_no_match by assumption.
  unfold withBlock. rewrite Hanchor. reflexivity.
Qed.

Lemma append_empty s : s +:+ "" = s.
Proof.
  induction s as [|c s IH]; [reflexivity|].
  change (String c (s +:+ "") = String c s). now rewrite IH.
Qed.

End EngineFacts.

(** ** The line-addition engine: main properties *)

Import EditHandler.

(** C1, as the code has it. With a pattern as search, a non-empty content
    list, a skip count of 0 and an indent that is not a negative number,
    [performLineAddition] inserts the block at every line that matches the
    pattern: the result is the file's lines, each matching line followed
    ([below]) or preceded ([above]) by the indented block. Hence exactly one
    insertion is made exactly when one line matches. *)
Theorem insertion_at_every_match :
  forall (host : Host) (preset : Preset) (text : string)
         (addition : LineAddition) (re : RegExp),
    searchOf preset addition = Some re ->
    contentOf preset addition <> [] ->
    skipOf preset addition = 0 ->
    indent_ok (indentOf preset addition) ->
    let d := directionOf preset addition in
    let cs := contentOf preset addition in
    let ai := indentOf preset addition in
    performLineAddition preset text addition =
      Ok (arr_join newline (flat_map (withBlock re ai cs d) (str_split LF text)))
    /\ (forall pre anchor post,
          str_split LF text = pre ++ anchor :: post ->
          no_match re pre -> line_match anchor re = true -> no_match re post ->
          performLineAddition preset text addition =
            Ok (arr_join newline
                  (pre ++ (if is_above d then block ai cs anchor ++ [anchor]
                           else anchor :: block ai cs anchor) ++ post))).
Proof.
  intros host preset text addition re Hs Hcs Hk Hok d cs ai.
  assert (Hk' : skipOf preset addition <= 0) by lia.
  split.
  - now apply every_match_result.
  - intros pre anchor post Hsplit Hpre Hanchor Hpost.
    now apply (single_anchor_result preset text addition re).
Qed.

Lemma insertion_at_every_match_witness :
  performLineAddition (host := exampleHost) tt (nl ["b"; "b"; "b"])
    (exampleAddition "b" below ["X"] IndentUnset 0)
  = Ok (nl ["b"; "X"; "b"; "X"; "b"; "X"]).
Proof.
  apply (proj1 (insertion_at_every_match exampleHost tt (nl ["b"; "b"; "b"])
           (exampleAddition "b" below ["X"] IndentUnset 0) "b"
           eq_refl ltac:(discriminate) eq_refl I)).
Defined.

(** C1, as stated, fails: three lines match with a skip count of 0, and
    three insertions are made; no single insertion point gives the result. *)
Lemma single_insertion_counterexample :
  performLineAddition (host := exampleHost) tt (nl ["b"; "b"; "b"])
    (exampleAddition "b" below ["X"] IndentUnset 0)
  = Ok (nl ["b"; "X"; "b"; "X"; "b"; "X"])
  /\ ~ (exists pre post,
          ["b"; "b"; "b"] = pre ++ post /\
          performLineAddition (host := exampleHost) tt (nl ["b"; "b"; "b"])
            (exampleAddition "b" below ["X"] IndentUnset 0)
          = Ok (nl (pre ++ ["X"] ++ post))).
Proof.
  split; [reflexivity|].
  intros (pre & post & Hsplit & Hres).
  assert (Hlen : (length pre + length post = 3)%nat).
  { rewrite <- length_app, <- Hsplit. reflexivity. }
  destruct pre as [|p1 [|p2 [|p3 [|p4 pre]]]];
    destruct post as [|q1 [|q2 [|q3 [|q4 post]]]];
    simpl in Hlen; try lia;
    simpl in Hsplit; inversion Hsplit; subst;
    vm_compute in Hres; discriminate Hres.
Qed.

(** A negative number as indent raises at the first insertion. *)
Example negative_indent_raises :
  performLineAddition (host := exampleHost) tt (nl ["  foo"])
    (exampleAddition "foo" below ["bar"] (IndentNumber (-1)) 0)
  = Throw RangeError.
Proof. reflexivity. Qed.

(** C2, as the code has it. The budget is spent on every line scanned from
    the first matching line on, matching or not: with a skip count [n], the
    block is inserted after the line [n] places after the first matching line
    (in scan order), and each later matching line gets the block as well. For
    the four-line example the result is the six-line text with a second
    insertion after the last line. *)
Theorem skip_counts_lines :
  (forall (host : Host) (preset : Preset) (text : string)
          (addition : LineAddition) (re : RegExp) (n : nat)
          (pre : list string) (first : string) (tail : list string)
          (anchor : string),
     searchOf preset addition = Some re ->
     contentOf preset addition <> [] ->
     indent_ok (indentOf preset addition) ->
     skipOf preset addition = Z.of_nat n ->
     let d := directionOf preset addition in
     let ordered := orient d (contentOf preset addition) in
     let ai := indentOf preset addition in
     orient d (str_split LF text) = pre ++ first :: tail ->
     no_match re pre ->
     line_match first re = true ->
     (first :: tail) !! n = Some anchor ->
     performLineAddition preset text addition =
       Ok (arr_join newline
             (orient d
                (pre ++ take (S n) (first :: tail) ++ block ai ordered anchor
                     ++ flat_map (withBlock re ai ordered below)
                          (drop (S n) (first :: tail))))))
  /\ performLineAddition (host := exampleHost) tt (nl ["a"; "b"; "b"; "b"])
       (exampleAddition "b" below ["X"] IndentUnset 1)
     = Ok (nl ["a"; "b"; "b"; "X"; "b"; "X"]).
Proof.
  split; [|reflexivity].
  intros host preset text addition re n pre first tail anchor
         Hs Hcs Hok Hk d ordered ai Hsplit Hpre Hfirst Hanchor.
  rewrite (performLineAddition_scan preset text addition re Hs Hcs Hok).
  fold d. rewrite Hsplit, Hk.
  rewrite scan_app_no_match by assumption.
  rewrite (scan_armed re _ _ n (first :: tail) anchor Hanchor).
  2:{ intros line Hl. simpl in Hl. inversion Hl; subst. exact Hfirst. }
  rewrite scan_every_match by lia.
  reflexivity.
Qed.

Lemma skip_counts_lines_witness :
  performLineAddition (host := exampleHost) tt (nl ["a"; "b"; "c"; "d"])
    (exampleAddition "b" below ["X"] IndentUnset 1)
  = Ok (nl ["a"; "b"; "c"; "X"; "d"]).
Proof.
  apply (proj1 skip_counts_lines exampleHost tt (nl ["a"; "b"; "c"; "d"])
           (exampleAddition "b" below ["X"] IndentUnset 1) "b" 1%nat
           ["a"] "b" ["c"; "d"] "c"
           eq_refl ltac:(discriminate) I eq_refl eq_refl
           ltac:(repeat constructor) eq_refl eq_refl).
Defined.

(** C2, as stated, fails twice: in the example the third matching line gets
    a second insertion, and a budget of 1 with one matching line puts the
    block after the next line, which does not match. *)
Lemma skip_example_counterexample :
  performLineAddition (host := exampleHost) tt (nl ["a"; "b"; "b"; "b"])
    (exampleAddition "b" below ["X"] IndentUnset 1)
  <> Ok (nl ["a"; "b"; "b"; "X"; "b"])
  /\ performLineAddition (host := exampleHost) tt (nl ["a"; "b"; "c"; "d"])
       (exampleAddition "b" below ["X"] IndentUnset 1)
     = Ok (nl ["a"; "b"; "c"; "X"; "d"]).
Proof.
  split; [|reflexivity].
  vm_compute. discriminate.
Qed.

(** C3. With the content ["1\n2\n3"], a pattern matching ["2"], the content
    to add [["X"]] and no skip, [below] puts the line after the anchor and
    [above] before it. In general with [above], every block inserted sits
    immediately before its anchor line, its lines in the order given; with
    no skip the anchors are the matching lines. *)
Theorem direction_symmetry :
  performLineAddition (host := exampleHost) tt (nl ["1"; "2"; "3"])
    (exampleAddition "2" below ["X"] IndentUnset 0)
  = Ok (nl ["1"; "2"; "X"; "3"])
  /\ performLineAddition (host := exampleHost) tt (nl ["1"; "2"; "3"])
       (exampleAddition "2" above ["X"] IndentUnset 0)
     = Ok (nl ["1"; "X"; "2"; "3"])
  /\ (forall (host : Host) (preset : Preset) (text : string)
             (addition : LineAddition) (re : RegExp),
        searchOf preset addition = Some re ->
        contentOf preset addition <> [] ->
        indent_ok (indentOf preset addition) ->
        directionOf preset addition = above ->
        let cs := contentOf preset addition in
        let ai := indentOf preset addition in
        (exists out,
            performLineAddition preset text addition = Ok (arr_join newline out)
            /\ Inserted (block ai cs) true (str_split LF text) out)
        /\ (skipOf preset addition = 0 ->
            forall pre anchor post,
              str_split LF text = pre ++ anchor :: post ->
              line_match anchor re = true ->
              performLineAddition preset text addition =
                Ok (arr_join newline
                      (flat_map (withBlock re ai cs above) pre
                         ++ block ai cs anchor
                         ++ anchor :: flat_map (withBlock re ai cs above) post)))).
Proof.
  split; [reflexivity|]. split; [reflexivity|].
  intros host preset text addition re Hs Hcs Hok Hd cs ai. split.
  - eexists. split.
    + apply (performLineAddition_scan preset text addition re Hs Hcs Hok).
    + rewrite Hd. apply (orient_scan_Inserted re ai cs above).
  - intros Hk pre anchor post Hsplit Hanchor.
    rewrite (every_match_result preset text addition re Hs Hcs) by (lia || assumption).
    rewrite Hsplit, Hd, flat_map_app. simpl.
    unfold withBlock at 2. rewrite Hanchor. simpl.
    rewrite <- !app_assoc. reflexivity.
Qed.

Lemma direction_symmetry_witness :
  performLineAddition (host := exampleHost) tt (nl ["  f"; "  g"; "h"])
    (exampleAddition "g" above ["X"; "Y"] IndentUnset 0)
  = Ok (nl ["  f"; "  X"; "  Y"; "  g"; "h"]).
Proof.
  apply (proj2 (proj2 (proj2 direction_symmetry) exampleHost tt
                  (nl ["  f"; "  g"; "h"])
                  (exampleAddition "g" above ["X"; "Y"] IndentUnset 0) "g"
                  eq_refl ltac:(discriminate) I eq_refl)
           eq_refl ["  f"] "  g" ["h"] eq_refl eq_refl).
Defined.

(** C4. [performLineAddition] returns its content argument unchanged when
    the resolved search is falsy, when the resolved content list is empty,
    and when no line of the content matches the search pattern. *)
Theorem unchanged_without_anchor :
  forall (host : Host) (preset : Preset) (text : string) (addition : LineAddition),
    searchOf preset addition = None
    \/ contentOf preset addition = []
    \/ (exists re, searchOf preset addition = Some re
                   /\ no_match re (str_split LF text)) ->
    performLineAddition preset text addition = Ok text.
Proof.
  intros host preset text addition [Hs|[Hc|(re & Hs & Hno)]].
  - apply performLineAddition_guard. now left.
  - apply performLineAddition_guard. now right.
  - now apply (performLineAddition_no_match preset text addition re).
Qed.

Lemma unchanged_without_anchor_witness :
  performLineAddition (host := exampleHost) tt (nl ["a"; "  b"; ""])
    (exampleAddition "z" above ["X"] (IndentNumber (-1)) 2)
  = Ok (nl ["a"; "  b"; ""]).
Proof.
  apply (unchanged_without_anchor exampleHost tt (nl ["a"; "  b"; ""])
           (exampleAddition "z" above ["X"] (IndentNumber (-1)) 2)).
  right. right. exists "z". split; [reflexivity|].
  vm_compute. repeat constructor.
Defined.

(** C5. For a single anchor line with leading-whitespace unit [unit] (of two
    characters in particular) and the content to add [["bar"]], the inserted
    line is prefixed by the indent mode, read in the order of the code: a
    falsy indent (unset, [0] or the empty string) gives [unit]; ['double']
    gives [unit] twice; a number [n > 0] gives [n] spaces, whatever the
    anchor's indentation; any other string is the prefix as it is. *)
Theorem indentation_modes :
  forall (host : Host) (preset : Preset) (text : string)
         (addition : LineAddition) (re : RegExp)
         (pre : list string) (anchor : string) (post : list string)
         (unit : string),
    searchOf preset addition = Some re ->
    contentOf preset addition = ["bar"] ->
    skipOf preset addition = 0 ->
    str_split LF text = pre ++ anchor :: post ->
    no_match re pre -> line_match anchor re = true -> no_match re post ->
    detectIndent anchor = unit ->
    let d := directionOf preset addition in
    let ai := indentOf preset addition in
    let inserted (prefix : string) : result JsError string :=
      Ok (arr_join newline
            (pre ++ (if is_above d then [prefix +:+ "bar"; anchor]
                     else [anchor; prefix +:+ "bar"]) ++ post)) in
    (falsy ai = true ->
       performLineAddition preset text addition = inserted unit)
    /\ (ai = IndentString "double" ->
       performLineAddition preset text addition = inserted (unit +:+ unit))
    /\ (forall n, ai = IndentNumber n -> 0 < n ->
       performLineAddition preset text addition =
         inserted (repeat_string " " (Z.to_nat n)))
    /\ (forall s, ai = IndentString s -> s <> "" -> s <> "double" ->
       performLineAddition preset text addition = inserted s).
Proof.
  intros host preset text addition re pre anchor post unit
         Hs Hc Hk Hsplit Hpre Hanchor Hpost Hunit d ai inserted.
  assert (Hres : indent_ok ai ->
            performLineAddition preset text addition =
              inserted (prefixOf ai anchor)).
  { intros Hok.
    rewrite (single_anchor_result preset text addition re pre anchor post)
      by (assumption || lia || (rewrite Hc; discriminate)).
    rewrite Hc. unfold inserted. fold d ai. destruct (is_above d); reflexivity. }
  repeat split.
  - intros Hf. rewrite Hres.
    + unfold prefixOf. now rewrite Hf, Hunit.
    + destruct ai as [|n|s]; simpl in *; [exact I| |exact I].
      apply Z.eqb_eq in Hf. lia.
  - intros Hai. rewrite Hres; rewrite Hai; [|exact I].
    unfold prefixOf. simpl. now rewrite Hunit, append_empty.
  - intros n Hai Hn. rewrite Hres; rewrite Hai; [|simpl; lia].
    unfold prefixOf. simpl.
    destruct (n =? 0) eqn:E; [apply Z.eqb_eq in E; lia|reflexivity].
  - intros s Hai Hne Hnd. rewrite Hres; rewrite Hai; [|exact I].
    unfold prefixOf. simpl.
    destruct (String.eqb s "") eqn:E1; [apply String.eqb_eq in E1; congruence|].
    destruct (String.eqb s "double") eqn:E2; [apply String.eqb_eq in E2; congruence|].
    reflexivity.
Qed.

Lemma indentation_modes_witness :
  performLineAddition (host := exampleHost) tt (nl ["{"; "  foo"; "}"])
    (exampleAddition "foo" below ["bar"] (IndentNumber 4) 0)
  = Ok (nl ["{"; "  foo"; "    bar"; "}"])
  /\ performLineAddition (host := exampleHost) tt (nl ["{"; "  foo"; "}"])
       (exampleAddition "foo" below ["bar"] (IndentString tab) 0)
     = Ok (nl ["{"; "  foo"; tab +:+ "bar"; "}"]).
Proof.
  split.
  - apply (proj1 (proj2 (proj2
      (indentation_modes exampleHost tt (nl ["{"; "  foo"; "}"])
         (exampleAddition "foo" below ["bar"] (IndentNumber 4) 0) "foo"
         ["{"] "  foo" ["}"] "  "
         eq_refl eq_refl eq_refl eq_refl
         ltac:(repeat constructor) eq_refl ltac:(repeat constructor) eq_refl)))
      4 eq_refl ltac:(lia)).
  - apply (proj2 (proj2 (proj2
      (indentation_modes exampleHost tt (nl ["{"; "  foo"; "}"])
         (exampleAddition "foo" below ["bar"] (IndentString tab) 0) "foo"
         ["{"] "  foo" ["}"] "  "
         eq_refl eq_refl eq_refl eq_refl
         ltac:(repeat constructor) eq_refl ltac:(repeat constructor) eq_refl)))
      tab eq_refl ltac:(discriminate) ltac:(discriminate)).
Defined.

(** C6, as the code has it. The lines of the content, as separated by the
    newline character alone, are copied as they are, a trailing carriage
    return included, and the result joins them and the inserted lines with
    one newline character: no line ending of the input is rewritten. *)
Theorem lines_copied_verbatim :
  forall (host : Host) (preset : Preset) (text : string) (addition : LineAddition),
    indent_ok (indentOf preset addition) ->
    exists out : list string,
      performLineAddition preset text addition = Ok (arr_join newline out)
      /\ sublist (str_split LF text) out.
Proof.
  intros host preset text addition Hok.
  destruct (searchOf preset addition) as [re|] eqn:Hs.
  - destruct (contentOf preset addition) as [|c cs] eqn:Hc.
    + exists (str_split LF text). split; [|reflexivity].
      rewrite join_split. apply performLineAddition_guard. now right.
    + eexists. split.
      * apply (performLineAddition_scan preset text addition re Hs); [|exact Hok].
        rewrite Hc. discriminate.
      * eapply Inserted_sublist. apply orient_scan_Inserted.
  - exists (str_split LF text). split; [|reflexivity].
    rewrite join_split. apply performLineAddition_guard. now left.
Qed.

Lemma lines_copied_verbatim_witness :
  exists out : list string,
    performLineAddition (host := exampleHost) tt ("a" +:+ crlf +:+ "b")
      (exampleAddition "a" below ["X"] IndentUnset 0)
    = Ok (arr_join newline out)
    /\ sublist (str_split LF ("a" +:+ crlf +:+ "b")) out.
Proof.
  apply (lines_copied_verbatim exampleHost tt ("a" +:+ crlf +:+ "b")
           (exampleAddition "a" below ["X"] IndentUnset 0) I).
Defined.

(** C6, as stated, fails: a content with carriage return and newline line
    endings comes back with them, with or without an insertion. *)
Lemma newline_normalization_counterexample :
  performLineAddition (host := exampleHost) tt ("a" +:+ crlf +:+ "b")
    (exampleAddition "z" below ["X"] IndentUnset 0)
  = Ok ("a" +:+ crlf +:+ "b")
  /\ includes crlf ("a" +:+ crlf +:+ "b") = true
  /\ performLineAddition (host := exampleHost) tt ("a" +:+ crlf +:+ "b")
       (exampleAddition "a" below ["X"] IndentUnset 0)
     = Ok ("a" +:+ crlf +:+ "X" +:+ newline +:+ "b").
Proof. repeat split; reflexivity. Qed.

(** ** The importer: main properties *)

Import ModuleImporter.

Lemma candidates_order `{host : ImporterHost} directory :
  candidates directory =
    map (path_join directory)
        ["preset.ts"; "preset.js"; "preset.mjs"; "preset.cjs";
         "src/preset.ts"; "src/preset.js"; "src/preset.mjs"; "src/preset.cjs"].
Proof. reflexivity. Qed.

(** C7, as the code has it. The object made into the context has exactly five
    names: [exports], [require], [module], [Preset] and [color]; and the
    value returned after a run is what the resulting context holds under
    [Preset]. *)
Theorem context_capabilities :
  forall (host : ImporterHost),
    dom initialContext = ({["exports"; "require"; "module"; "Preset"; "color"]} : gset string)
    /\ size initialContext = 5%nat
    /\ initialContext !! "exports" = Some emptyObject
    /\ initialContext !! "require" = Some hostRequire
    /\ initialContext !! "module" = Some hostModule
    /\ initialContext !! "Preset" = Some newPreset
    /\ initialContext !! "color" = Some colorHelper
    /\ (forall script code context',
          transformSync script = Ok code ->
          runInContext code initialContext = Ok context' ->
          evaluateConfiguration script = Ok (context' !! "Preset")).
Proof.
  intros host.
  split; [unfold initialContext; rewrite !dom_insert_L, dom_empty_L; set_solver|].
  split; [reflexivity|].
  do 5 (split; [reflexivity|]).
  intros script code context' Ht Hr. unfold evaluateConfiguration.
  rewrite Ht. simpl. rewrite Hr. reflexivity.
Qed.

Lemma context_capabilities_witness :
  evaluateConfiguration (host := exampleImporter) "Preset.setName('x')"
  = Ok (Some [("source", "Preset.setName('x')")]).
Proof.
  apply (proj2 (proj2 (proj2 (proj2 (proj2 (proj2 (proj2
           (context_capabilities exampleImporter)))))))
           "Preset.setName('x')" "Preset.setName('x')"
           (alter (fun builder => builder ++ [("source", "Preset.setName('x')")])
                  "Preset" (initialContext (host := exampleImporter)))
           eq_refl eq_refl).
Defined.

(** C7, as stated, fails: the context also holds [module], a fifth name. *)
Lemma four_capabilities_counterexample :
  initialContext (host := exampleImporter) !! "module" = Some [("object", "module")]
  /\ dom (initialContext (host := exampleImporter))
     <> ({["exports"; "require"; "Preset"; "color"]} : gset string).
Proof.
  split; [reflexivity|].
  intros H.
  assert (Hin : "module" ∈ dom (initialContext (host := exampleImporter))).
  { apply elem_of_dom. eexists. reflexivity. }
  rewrite H in Hin. set_solver.
Qed.

(** *** Entry-file discovery *)

Section Discovery.
Context {host : ImporterHost}.
Variable fs : gmap string Node.

Lemma specified_file_wins directory text preset contents :
  fs !! path_join directory "package.json" = Some (RegularFile text) ->
  manifestPreset text = Ok (Some preset) ->
  fs !! path_join directory preset = Some (RegularFile contents) ->
  findConfiguration fs directory = Ok (path_join directory preset).
Proof.
  intros Hm Hp Hf. unfold findConfiguration, specifiedConfiguration.
  unfold existsSync, readFileSync, statSync_isFile.
  rewrite Hm. simpl. rewrite Hp. simpl. rewrite Hf. reflexivity.
Qed.

Lemma specified_directory_is_refused directory text preset :
  fs !! path_join directory "package.json" = Some (RegularFile text) ->
  manifestPreset text = Ok (Some preset) ->
  fs !! path_join directory preset = Some Directory ->
  findConfiguration fs directory =
    Throw (Execution (explicitFileMissing (path_join directory preset))).
Proof.
  intros Hm Hp Hf. unfold findConfiguration, specifiedConfiguration.
  unfold existsSync, readFileSync, statSync_isFile.
  rewrite Hm. simpl. rewrite Hp. simpl. rewrite Hf. reflexivity.
Qed.

(** A declared path that does not exist: [statSync] throws before the
    [ExecutionError] is built. *)
Lemma specified_missing_is_raw directory text preset :
  fs !! path_join directory "package.json" = Some (RegularFile text) ->
  manifestPreset text = Ok (Some preset) ->
  fs !! path_join directory preset = None ->
  findConfiguration fs directory = Throw (Raw (ENOENT (path_join directory preset))).
Proof.
  intros Hm Hp Hf. unfold findConfiguration, specifiedConfiguration.
  unfold existsSync, readFileSync, statSync_isFile.
  rewrite Hm. simpl. rewrite Hp. simpl. rewrite Hf. reflexivity.
Qed.

Lemma conventional_probe directory :
  fs !! path_join directory "package.json" = None ->
  findConfiguration fs directory =
    match List.find (existsSync fs) (candidates directory) with
    | Some file => Ok file
    | None => Throw (Execution (configurationNotFound directory))
    end.
Proof.
  intros Hm. unfold findConfiguration, specifiedConfiguration.
  unfold existsSync at 1. rewrite Hm. reflexivity.
Qed.

Lemma conventional_probe_undeclared directory text :
  fs !! path_join directory "package.json" = Some (RegularFile text) ->
  manifestPreset text = Ok None ->
  findConfiguration fs directory =
    match List.find (existsSync fs) (candidates directory) with
    | Some file => Ok file
    | None => Throw (Execution (configurationNotFound directory))
    end.
Proof.
  intros Hm Hp. unfold findConfiguration, specifiedConfiguration.
  unfold existsSync at 1, readFileSync. rewrite Hm. simpl. rewrite Hp. reflexivity.
Qed.

End Discovery.

(** C8 at its failing input. The manifest of [/p] names [missing.ts], which
    does not exist, and [/p/preset.ts] exists: [findConfiguration] does halt
    without probing the conventional names, but what it throws is the raw
    [ENOENT] failure of [statSync], not the [ExecutionError] for a missing
    specified file. *)
Theorem explicit_file_missing_is_not_reported :
  findConfiguration (host := exampleImporter) missingOverride "/p"
  = Throw (Raw (ENOENT "/p/missing.ts"))
  /\ findConfiguration (host := exampleImporter) missingOverride "/p"
     <> Throw (Execution (explicitFileMissing (host := exampleImporter) "/p/missing.ts"))
  /\ existsSync missingOverride "/p/preset.ts" = true.
Proof.
  split; [|split].
  - apply (specified_missing_is_raw (host := exampleImporter) missingOverride
             "/p" (exampleManifest "missing.ts") "missing.ts");
      reflexivity.
  - rewrite (specified_missing_is_raw (host := exampleImporter) missingOverride
               "/p" (exampleManifest "missing.ts") "missing.ts") by reflexivity.
    discriminate.
  - reflexivity.
Qed.

(** C9. A failure of the transform, or of the run in the context, comes out
    of [evaluateConfiguration] as one [ExecutionError] that stops the
    execution and carries the original failure as its complete stack; no raw
    failure leaves [evaluateConfiguration]. *)
Theorem evaluation_failures_are_wrapped :
  forall (host : ImporterHost) (script : string),
    let wrapped (error : Failure) : result Thrown (option Value) :=
      Throw (Execution {| message := "The preset could not be evaluated.";
                          stack := Some error;
                          stops := true |}) in
    (forall error,
        transformSync script = Throw error ->
        evaluateConfiguration script = wrapped error)
    /\ (forall code error,
          transformSync script = Ok code ->
          runInContext code initialContext = Throw error ->
          evaluateConfiguration script = wrapped error)
    /\ (forall error, evaluateConfiguration script <> Throw (Raw error)).
Proof.
  intros host script wrapped. unfold evaluateConfiguration. repeat split.
  - intros error Ht. rewrite Ht. reflexivity.
  - intros code error Ht Hr. rewrite Ht. simpl. rewrite Hr. reflexivity.
  - intros error. destruct (transformSync script) as [code|e]; simpl.
    + destruct (runInContext code initialContext); simpl; discriminate.
    + discriminate.
Qed.

Lemma evaluation_failures_are_wrapped_witness :
  evaluateConfiguration (host := exampleImporter) "throw new Error('x')"
  = Throw (Execution {| message := "The preset could not be evaluated.";
                        stack := Some (ScriptFailure "throw new Error('x')");
                        stops := true |})
  /\ evaluateConfiguration (host := exampleImporter) "syntax error"
     = Throw (Execution {| message := "The preset could not be evaluated.";
                           stack := Some (TransformFailure "syntax error");
                           stops := true |}).
Proof.
  split.
  - apply (proj1 (proj2 (evaluation_failures_are_wrapped exampleImporter
                           "throw new Error('x')"))
             "throw new Error('x')" (ScriptFailure "throw new Error('x')")
             eq_refl eq_refl).
  - apply (proj1 (evaluation_failures_are_wrapped exampleImporter "syntax error")
             (TransformFailure "syntax error") eq_refl).
Defined.

(** ** The logger: main property *)

(** C10. [Logger.exit] hands its message to the underlying logger at the
    [error] level and then ends the process with exit status 0, whatever the
    message: the status is never another one. *)
Theorem exit_status_is_zero :
  forall (Message : Type) (m : Message) (a : list string) (st : Logger.State Message),
    Logger.exitStatus (Logger.exit m a st) = Some 0
    /\ Logger.logged (Logger.stateOf (Logger.exit m a st)) =
         Logger.logged st
           ++ [{| Logger.level := Logger.error;
                  Logger.message := m;
                  Logger.args := a |}].
Proof. intros Message m a st. split; reflexivity. Qed.

(** * Further properties *)

(** ** Lines and characters *)

Lemma clean_line_cons c line :
  clean_line (String c line) ->
  Ascii.eqb c CR = false /\ Ascii.eqb c LF = false /\ clean_line line.
Proof.
  unfold clean_line. cbn [has_char]. intros [Hcr Hlf].
  apply orb_false_iff in Hcr. apply orb_false_iff in Hlf.
  destruct Hcr as [Hc1 Hc2], Hlf as [Hl1 Hl2].
  rewrite Ascii.eqb_sym in Hc1. rewrite Ascii.eqb_sym in Hl1. auto.
Qed.

Lemma split_lines_nonempty s : split_lines s <> [].
Proof.
  destruct s as [|c rest]; simpl; [discriminate|].
  destruct (Ascii.eqb c CR).
  - destruct rest as [|d rest']; [discriminate|].
    destruct (Ascii.eqb d LF); discriminate.
  - destruct (Ascii.eqb c LF); [discriminate|].
    destruct (split_lines rest); discriminate.
Qed.

Lemma split_lines_cons_plain c rest :
  Ascii.eqb c CR = false -> Ascii.eqb c LF = false ->
  split_lines (String c rest) =
    match split_lines rest with
    | [] => [String c EmptyString]
    | piece :: pieces => String c piece :: pieces
    end.
Proof. intros Hcr Hlf. cbn [split_lines]. now rewrite Hcr, Hlf. Qed.

Lemma split_lines_newline rest :
  split_lines (String LF rest) = EmptyString :: split_lines rest.
Proof. reflexivity. Qed.

Lemma split_lines_cr_lf rest :
  split_lines (String CR (String LF rest)) = EmptyString :: split_lines rest.
Proof. reflexivity. Qed.

Lemma split_lines_cr d rest :
  Ascii.eqb d LF = false ->
  split_lines (String CR (String d rest)) =
    EmptyString :: split_lines (String d rest).
Proof.
  intros Hlf.
  change (split_lines (String CR (String d rest)))
    with (if Ascii.eqb d LF then EmptyString :: split_lines rest
          else EmptyString :: split_lines (String d rest)).
  now rewrite Hlf.
Qed.

Lemma split_lines_line_app line rest :
  clean_line line ->
  split_lines (line +:+ newline +:+ rest) = line :: split_lines rest.
Proof.
  induction line as [|c line IH]; intros Hclean.
  - reflexivity.
  - apply clean_line_cons in Hclean. destruct Hclean as (Hcr & Hlf & Hclean).
    change (String c line +:+ newline +:+ rest)
      with (String c (line +:+ newline +:+ rest)).
    rewrite split_lines_cons_plain by assumption.
    now rewrite IH.
Qed.

Lemma split_lines_line line : clean_line line -> split_lines line = [line].
Proof.
  induction line as [|c line IH]; intros Hclean; [reflexivity|].
  apply clean_line_cons in Hclean. destruct Hclean as (Hcr & Hlf & Hclean).
  rewrite split_lines_cons_plain by assumption. now rewrite IH.
Qed.

Lemma split_lines_join lines :
  lines <> [] -> Forall clean_line lines ->
  split_lines (arr_join newline lines) = lines.
Proof.
  induction lines as [|line rest IH]; intros Hne Hall; [congruence|].
  inversion Hall as [|? ? Hline Hrest]; subst.
  destruct rest as [|line' rest].
  - simpl. now apply split_lines_line.
  - rewrite arr_join_cons, split_lines_line_app by assumption.
    rewrite IH by (assumption || discriminate). reflexivity.
Qed.

Lemma split_lines_clean s : Forall clean_line (split_lines s).
Proof.
  assert (Hboth : forall s,
    Forall clean_line (split_lines s)
    /\ (forall c, Forall clean_line (split_lines (String c s)))).
  { clear s. intros s. induction s as [|d rest IHs]; [|destruct IHs as [IH IHc]].
    - split; [repeat constructor|].
      intros c. cbn [split_lines].
      destruct (Ascii.eqb c CR) eqn:Hcr; [repeat constructor|].
      destruct (Ascii.eqb c LF) eqn:Hlf; [repeat constructor|].
      constructor; [|constructor].
      unfold clean_line. cbn [has_char].
      rewrite (Ascii.eqb_sym CR c), (Ascii.eqb_sym LF c), Hcr, Hlf. auto.
    - split; [apply IHc|].
      intros c. specialize (IHc d).
      destruct (Ascii.eqb c CR) eqn:Hcr.
      + apply Ascii.eqb_eq in Hcr. subst c.
        destruct (Ascii.eqb d LF) eqn:Hlf.
        * apply Ascii.eqb_eq in Hlf. subst d. rewrite split_lines_cr_lf.
          constructor; [split; reflexivity | exact IH].
        * rewrite split_lines_cr by assumption.
          constructor; [split; reflexivity | exact IHc].
      + destruct (Ascii.eqb c LF) eqn:Hlf.
        * cbn [split_lines]. rewrite Hcr, Hlf.
          constructor; [split; reflexivity | exact IHc].
        * rewrite split_lines_cons_plain by assumption.
          pose proof (split_lines_nonempty (String d rest)) as Hne.
          destruct (split_lines (String d rest)) as [|piece pieces]; [congruence|].
          inversion IHc as [|? ? [Hp1 Hp2] Hps]; subst.
          constructor; [|exact Hps].
          unfold clean_line. cbn [has_char].
          rewrite (Ascii.eqb_sym CR c), (Ascii.eqb_sym LF c), Hcr, Hlf. auto. }
  apply Hboth.
Qed.

Lemma has_char_app c a b :
  has_char c (a +:+ b) = has_char c a || has_char c b.
Proof.
  induction a as [|d a IH]; [reflexivity|].
  change (String d a +:+ b) with (String d (a +:+ b)).
  cbn [has_char]. rewrite IH. now rewrite orb_assoc.
Qed.

Lemma has_char_join c lines :
  has_char c newline = false ->
  Forall (fun line => has_char c line = false) lines ->
  has_char c (arr_join newline lines) = false.
Proof.
  intros Hnl. induction 1 as [|line rest Hline Hrest IH]; [reflexivity|].
  destruct rest as [|line' rest]; [exact Hline|].
  rewrite arr_join_cons, !has_char_app, Hline, Hnl, IH. reflexivity.
Qed.

(** Without a carriage return, splitting on the three line endings is
    splitting on the newline. *)
Lemma split_lines_no_cr s :
  has_char CR s = false -> split_lines s = str_split LF s.
Proof.
  induction s as [|c rest IH]; intros Hcr; [reflexivity|].
  cbn [has_char] in Hcr. apply orb_false_iff in Hcr. destruct Hcr as [Hc Hrest].
  rewrite Ascii.eqb_sym in Hc.
  cbn [split_lines str_split]. rewrite Hc.
  destruct (Ascii.eqb c LF); rewrite IH by assumption; reflexivity.
Qed.

Lemma Forall_list_filter {A} (P : A -> Prop) (f : A -> bool) l :
  Forall P l -> Forall P (List.filter f l).
Proof.
  induction 1 as [|x xs Hx _ IH]; [constructor|].
  simpl. destruct (f x); [now constructor | exact IH].
Qed.

Lemma list_filter_all {A} (f : A -> bool) l :
  Forall (fun x => f x = true) l -> List.filter f l = l.
Proof.
  induction 1 as [|x xs Hx _ IH]; [reflexivity|].
  simpl. now rewrite Hx, IH.
Qed.

Lemma list_filter_passes {A} (f : A -> bool) l :
  Forall (fun x => f x = true) (List.filter f l).
Proof.
  induction l as [|x xs IH]; [constructor|].
  simpl. destruct (f x) eqn:Hx; [now constructor | exact IH].
Qed.

(** ** Stripping the host's import statements *)

Import ImporterScript.

Lemma kept_lines_clean packageName script :
  Forall clean_line (List.filter (keepsLine packageName) (split_lines script)).
Proof. apply Forall_list_filter, split_lines_clean. Qed.

Lemma sanitized_lines packageName script :
  split_lines (removeSelfImportStatement packageName script) =
    match List.filter (keepsLine packageName) (split_lines script) with
    | [] => [EmptyString]
    | line :: rest => line :: rest
    end.
Proof.
  unfold removeSelfImportStatement.
  pose proof (kept_lines_clean packageName script) as Hclean.
  destruct (List.filter (keepsLine packageName) (split_lines script))
    as [|line rest] eqn:E; [reflexivity|].
  apply split_lines_join; [discriminate | exact Hclean].
Qed.

(** X1. The lines of the sanitized script are the lines of the script that
    pass the filter, in their order, whatever line endings the script uses;
    when no line is left, the result is the empty script. *)
Theorem sanitized_script_lines :
  forall (packageName script : string),
    let kept := List.filter (keepsLine packageName) (split_lines script) in
    (kept <> [] ->
       split_lines (removeSelfImportStatement packageName script) = kept)
    /\ (kept = [] -> removeSelfImportStatement packageName script = "").
Proof.
  intros packageName script kept. split.
  - intros Hne. rewrite sanitized_lines. fold kept.
    destruct kept; [congruence | reflexivity].
  - intros Hnil. unfold removeSelfImportStatement. fold kept.
    now rewrite Hnil.
Qed.

Lemma sanitized_script_lines_witness :
  split_lines (removeSelfImportStatement "use-preset"
    ("import { Preset } from 'use-preset';" +:+ crlf +:+ "Preset.setName('x');"))
  = ["Preset.setName('x');"]
  /\ removeSelfImportStatement "use-preset" "const p = require('use-preset')" = "".
Proof.
  split.
  - apply (proj1 (sanitized_script_lines "use-preset"
      ("import { Preset } from 'use-preset';" +:+ crlf +:+ "Preset.setName('x');"))).
    vm_compute. discriminate.
  - apply (proj2 (sanitized_script_lines "use-preset"
      "const p = require('use-preset')")).
    reflexivity.
Defined.

(** X2. The sanitized script holds no carriage return: whatever line endings
    the script has, the result separates its lines by the newline alone. *)
Theorem sanitized_script_has_no_carriage_return :
  forall (packageName script : string),
    has_char CR (removeSelfImportStatement packageName script) = false.
Proof.
  intros packageName script. unfold removeSelfImportStatement.
  apply has_char_join; [reflexivity|].
  eapply Forall_impl; [apply kept_lines_clean|].
  intros line [Hcr _]. exact Hcr.
Qed.

(** X3. Sanitizing is idempotent: a sanitized script is left as it is. *)
Theorem sanitizing_is_idempotent :
  forall (packageName script : string),
    removeSelfImportStatement packageName
      (removeSelfImportStatement packageName script)
    = removeSelfImportStatement packageName script.
Proof.
  intros packageName script.
  unfold removeSelfImportStatement at 1. rewrite sanitized_lines.
  unfold removeSelfImportStatement.
  destruct (List.filter (keepsLine packageName) (split_lines script))
    as [|line rest] eqn:E; [reflexivity|].
  rewrite list_filter_all; [reflexivity|].
  rewrite <- E. apply list_filter_passes.
Qed.

(** X4. A script none of whose lines is an import of the host is only
    rewritten in its line endings, and returned as it is when it holds no
    carriage return. *)
Theorem plain_script_is_kept :
  forall (packageName script : string),
    Forall (fun line => keepsLine packageName line = true) (split_lines script) ->
    removeSelfImportStatement packageName script =
      arr_join newline (split_lines script)
    /\ (has_char CR script = false ->
        removeSelfImportStatement packageName script = script).
Proof.
  intros packageName script Hall.
  assert (E : removeSelfImportStatement packageName script =
              arr_join newline (split_lines script)).
  { unfold removeSelfImportStatement. now rewrite list_filter_all. }
  split; [exact E|].
  intros Hcr. rewrite E, split_lines_no_cr by assumption. apply join_split.
Qed.

Lemma plain_script_is_kept_witness :
  removeSelfImportStatement "use-preset"
    ("Preset.setName('x');" +:+ newline +:+ "Preset.edit('a.txt');")
  = "Preset.setName('x');" +:+ newline +:+ "Preset.edit('a.txt');".
Proof.
  apply (proj2 (plain_script_is_kept "use-preset"
           ("Preset.setName('x');" +:+ newline +:+ "Preset.edit('a.txt');")
           ltac:(vm_compute; repeat constructor))).
  reflexivity.
Defined.

(** ** Discovery of the entry file *)

Import ModuleImporter.

Lemma find_first {A} (f : A -> bool) pre x post :
  Forall (fun y => f y = false) pre -> f x = true ->
  List.find f (pre ++ x :: post) = Some x.
Proof.
  induction 1 as [|y ys Hy _ IH]; intros Hx; simpl.
  - now rewrite Hx.
  - rewrite Hy. now apply IH.
Qed.

Lemma find_nothing {A} (f : A -> bool) l :
  Forall (fun y => f y = false) l -> List.find f l = None.
Proof.
  induction 1 as [|y ys Hy _ IH]; [reflexivity|].
  simpl. now rewrite Hy.
Qed.

Lemma find_is_member {A} (f : A -> bool) l x :
  List.find f l = Some x -> In x l /\ f x = true.
Proof.
  induction l as [|y ys IH]; simpl; [discriminate|].
  destruct (f y) eqn:Hy.
  - intros E. inversion E; subst. auto.
  - intros E. destruct (IH E). auto.
Qed.

(** X5. A path returned by the discovery exists: it is either the path the
    manifest declares, which is then a regular file, or one of the eight
    conventional names. *)
Theorem discovered_file_exists :
  forall (host : ImporterHost) (fs : gmap string Node) (directory file : string),
    findConfiguration fs directory = Ok file ->
    existsSync fs file = true
    /\ ((exists text preset contents,
           fs !! path_join directory "package.json" = Some (RegularFile text)
           /\ manifestPreset text = Ok (Some preset)
           /\ file = path_join directory preset
           /\ fs !! file = Some (RegularFile contents))
        \/ In file (candidates directory)).
Proof.
  intros host fs directory file.
  unfold findConfiguration, specifiedConfiguration.
  unfold existsSync at 1, readFileSync.
  assert (Hprobe :
    match List.find (existsSync fs) (candidates directory) with
    | Some f => Ok f
    | None => Throw (Execution (configurationNotFound directory))
    end = Ok file ->
    existsSync fs file = true /\ In file (candidates directory)).
  { destruct (List.find (existsSync fs) (candidates directory)) as [f|] eqn:Hf;
      [|discriminate].
    intros E. inversion E; subst. apply find_is_member in Hf. tauto. }
  destruct (fs !! path_join directory "package.json") as [[text|]|] eqn:Hm; simpl.
  - destruct (manifestPreset text) as [[preset|]|e] eqn:Hp; simpl.
    + unfold statSync_isFile.
      destruct (fs !! path_join directory preset) as [[contents|]|] eqn:Hf;
        simpl; try discriminate.
      intros E. inversion E; subst. split.
      * unfold existsSync. now rewrite Hf.
      * left. exists text, preset, contents. auto.
    + intros E. destruct (Hprobe E). auto.
    + discriminate.
  - discriminate.
  - intros E. destruct (Hprobe E). auto.
Qed.

Lemma discovered_file_exists_witness :
  existsSync conventionalOnly "/p/src/preset.js" = true.
Proof.
  apply (proj1 (discovered_file_exists exampleImporter conventionalOnly
           "/p" "/p/src/preset.js" eq_refl)).
Defined.

(** X6. Without a declared path, the first conventional name that exists
    wins, in the order [preset] then [src/preset] and [ts], [js], [mjs],
    [cjs], whether it names a regular file or a directory. *)
Theorem first_existing_candidate_wins :
  forall (host : ImporterHost) (fs : gmap string Node) (directory : string)
         (earlier : list string) (file : string) (later : list string),
    specifiedConfiguration fs directory = Ok None ->
    map (path_join directory)
        ["preset.ts"; "preset.js"; "preset.mjs"; "preset.cjs";
         "src/preset.ts"; "src/preset.js"; "src/preset.mjs"; "src/preset.cjs"]
      = earlier ++ file :: later ->
    Forall (fun other => fs !! other = None) earlier ->
    is_Some (fs !! file) ->
    findConfiguration fs directory = Ok file.
Proof.
  intros host fs directory earlier file later Hspec Hsplit Hearlier [node Hfile].
  unfold findConfiguration. rewrite Hspec. unfold bind.
  rewrite candidates_order, Hsplit, find_first; [reflexivity| |].
  - eapply Forall_impl; [exact Hearlier|].
    intros other Ho. unfold existsSync. now rewrite Ho.
  - unfold existsSync. now rewrite Hfile.
Qed.

Lemma first_existing_candidate_wins_witness :
  findConfiguration (host := exampleImporter) directoryCandidate "/p"
  = Ok "/p/preset.ts".
Proof.
  apply (first_existing_candidate_wins exampleImporter directoryCandidate "/p"
           [] "/p/preset.ts"
           ["/p/preset.js"; "/p/preset.mjs"; "/p/preset.cjs"; "/p/src/preset.ts";
            "/p/src/preset.js"; "/p/src/preset.mjs"; "/p/src/preset.cjs"]
           eq_refl eq_refl ltac:(constructor)).
  eexists. reflexivity.
Defined.

(** X7. Without a declared path and with none of the conventional names in
    the file system, the discovery throws the execution error for a
    configuration that could not be found, which stops the execution and
    carries no stack. *)
Theorem no_candidate_is_configuration_not_found :
  forall (host : ImporterHost) (fs : gmap string Node) (directory : string),
    specifiedConfiguration fs directory = Ok None ->
    Forall (fun candidate => fs !! candidate = None) (candidates directory) ->
    findConfiguration fs directory =
      Throw (Execution
        {| message := "The configuration file could not be found (tried in "
                        +:+ magenta directory +:+ ").";
           stack := None;
           stops := true |}).
Proof.
  intros host fs directory Hspec Hnone.
  unfold findConfiguration. rewrite Hspec. unfold bind.
  rewrite find_nothing; [reflexivity|].
  eapply Forall_impl; [exact Hnone|].
  intros other Ho. unfold existsSync. now rewrite Ho.
Qed.

Lemma no_candidate_is_configuration_not_found_witness :
  findConfiguration (host := exampleImporter) emptyDirectory "/p"
  = Throw (Execution
      {| message := "The configuration file could not be found (tried in /p).";
         stack := None;
         stops := true |}).
Proof.
  apply (no_candidate_is_configuration_not_found exampleImporter emptyDirectory
           "/p" eq_refl).
  vm_compute. repeat constructor.
Defined.

(** X8. A manifest that cannot be read or parsed ends the discovery with the
    raw failure, whatever conventional files exist: the manifest being a
    directory gives the failure of the read, and a parse failure is thrown
    as it is. *)
Theorem manifest_failure_is_raw :
  forall (host : ImporterHost) (fs : gmap string Node) (directory : string),
    (fs !! path_join directory "package.json" = Some Directory ->
     findConfiguration fs directory =
       Throw (Raw (EISDIR (path_join directory "package.json"))))
    /\ (forall text failure,
          fs !! path_join directory "package.json" = Some (RegularFile text) ->
          manifestPreset text = Throw failure ->
          findConfiguration fs directory = Throw (Raw failure)).
Proof.
  intros host fs directory. split.
  - intros Hm. unfold findConfiguration, specifiedConfiguration.
    unfold existsSync, readFileSync. rewrite Hm. reflexivity.
  - intros text failure Hm Hp. unfold findConfiguration, specifiedConfiguration.
    unfold existsSync, readFileSync. rewrite Hm. simpl. rewrite Hp. reflexivity.
Qed.

Lemma manifest_failure_is_raw_witness :
  findConfiguration (host := exampleImporter) brokenManifest "/p"
  = Throw (Raw (SyntaxError "{preset")).
Proof.
  apply (proj2 (manifest_failure_is_raw exampleImporter brokenManifest "/p")
           "{preset" (SyntaxError "{preset") eq_refl eq_refl).
Defined.

(** X9. A path declared by the manifest takes precedence over the
    conventional names: when it names a regular file it is returned, and when
    it names something that is not a regular file the discovery throws the
    execution error for a missing specified file, which stops the execution
    and carries no stack; the conventional names are not probed. *)
Theorem declared_path_takes_precedence :
  forall (host : ImporterHost) (fs : gmap string Node) (directory : string)
         (text preset : string),
    fs !! path_join directory "package.json" = Some (RegularFile text) ->
    manifestPreset text = Ok (Some preset) ->
    (forall contents,
        fs !! path_join directory preset = Some (RegularFile contents) ->
        findConfiguration fs directory = Ok (path_join directory preset))
    /\ (fs !! path_join directory preset = Some Directory ->
        findConfiguration fs directory =
          Throw (Execution
            {| message := "The specified configuration file does not exist ("
                            +:+ magenta (path_join directory preset) +:+ ").";
               stack := None;
               stops := true |})).
Proof.
  intros host fs directory text preset Hm Hp.
  unfold findConfiguration, specifiedConfiguration.
  unfold existsSync, readFileSync, statSync_isFile.
  rewrite Hm. simpl. rewrite Hp. simpl.
  split; intros; match goal with H : fs !! _ = _ |- _ => rewrite H end; reflexivity.
Qed.

Lemma declared_path_takes_precedence_witness :
  findConfiguration (host := exampleImporter) goodOverride "/p" = Ok "/p/custom.ts"
  /\ findConfiguration (host := exampleImporter) directoryOverride "/p"
     = Throw (Execution
         {| message := "The specified configuration file does not exist (/p/lib).";
            stack := None;
            stops := true |}).
Proof.
  split.
  - apply (proj1 (declared_path_takes_precedence exampleImporter goodOverride
             "/p" (exampleManifest "custom.ts") "custom.ts" eq_refl eq_refl)
             "Preset.setName('custom')" eq_refl).
  - apply (proj2 (declared_path_takes_precedence exampleImporter directoryOverride
             "/p" (exampleManifest "lib") "lib" eq_refl eq_refl) eq_refl).
Defined.

(** ** The import of a preset *)

(** X10. When the discovery returns a regular file, [import] is the
    evaluation of that file's text without the host's import lines; so it
    returns what the script left under [Preset], or throws an execution
    error, never a raw failure. *)
Theorem import_evaluates_sanitized_script :
  forall (host : ImporterHost) (packageName : string)
         (fs : gmap string Node) (directory file script : string),
    findConfiguration fs directory = Ok file ->
    fs !! file = Some (RegularFile script) ->
    import packageName fs directory =
      evaluateConfiguration (removeSelfImportStatement packageName script)
    /\ (forall failure, import packageName fs directory <> Throw (Raw failure)).
Proof.
  intros host packageName fs directory file script Hfind Hfile.
  assert (E : import packageName fs directory =
              evaluateConfiguration (removeSelfImportStatement packageName script)).
  { unfold import. rewrite Hfind. unfold bind at 1.
    unfold readFileSync. rewrite Hfile. reflexivity. }
  split; [exact E|].
  intros failure. rewrite E. unfold evaluateConfiguration.
  destruct (transformSync _) as [code|e]; simpl; [|discriminate].
  destruct (runInContext code initialContext); simpl; discriminate.
Qed.

Lemma import_evaluates_sanitized_script_witness :
  import (host := exampleImporter) "use-preset" conventionalOnly "/p"
  = Ok (Some [("source", "Preset.setName('x')")]).
Proof.
  apply (proj1 (import_evaluates_sanitized_script exampleImporter "use-preset"
           conventionalOnly "/p" "/p/src/preset.js" "Preset.setName('x')"
           eq_refl eq_refl)).
Defined.

(** X11. The conventional probe tests existence only: when the first
    conventional name that exists is a directory, [import] throws the raw
    failure of reading a directory, even if a later name is a regular
    file. *)
Theorem directory_candidate_fails_import :
  forall (host : ImporterHost) (packageName : string)
         (fs : gmap string Node) (directory : string)
         (earlier : list string) (file : string) (later : list string),
    specifiedConfiguration fs directory = Ok None ->
    candidates directory = earlier ++ file :: later ->
    Forall (fun other => fs !! other = None) earlier ->
    fs !! file = Some Directory ->
    import packageName fs directory = Throw (Raw (EISDIR file)).
Proof.
  intros host packageName fs directory earlier file later
         Hspec Hsplit Hearlier Hfile.
  unfold import, findConfiguration. rewrite Hspec. unfold bind at 2.
  rewrite Hsplit, find_first.
  - unfold bind at 1. unfold readFileSync. rewrite Hfile. reflexivity.
  - eapply Forall_impl; [exact Hearlier|].
    intros other Ho. unfold existsSync. now rewrite Ho.
  - unfold existsSync. now rewrite Hfile.
Qed.

Lemma directory_candidate_fails_import_witness :
  import (host := exampleImporter) "use-preset" directoryCandidate "/p"
  = Throw (Raw (EISDIR "/p/preset.ts"))
  /\ directoryCandidate !! "/p/preset.js" = Some (RegularFile "Preset.setName('x')").
Proof.
  split; [|reflexivity].
  apply (directory_candidate_fails_import exampleImporter "use-preset"
           directoryCandidate "/p" [] "/p/preset.ts"
           ["/p/preset.js"; "/p/preset.mjs"; "/p/preset.cjs"; "/p/src/preset.ts";
            "/p/src/preset.js"; "/p/src/preset.mjs"; "/p/src/preset.cjs"]
           eq_refl eq_refl ltac:(constructor) eq_refl).
Defined.

(** ** The edit handler on files *)

Section HandleFacts.
Context {host : Host}.
Variable path_join : string -> string -> string.
Variable glob : gmap string Node -> string -> string -> list string.
Import EditHandler EditAction.


Lemma handleFile_other action target fs name p :
  p <> path_join target name ->
  (handleFile path_join action target fs name).1 !! p = fs !! p.
Proof.
  intros Hne. unfold handleFile.
  destruct (fs !! path_join target name) as [[text|]|]; [|reflexivity|reflexivity].
  destruct (editContent action text); simpl; [|reflexivity].
  now rewrite lookup_insert_ne.
Qed.

Lemma handleFile_kind action target fs name p :
  node_kind ((handleFile path_join action target fs name).1 !! p) = node_kind (fs !! p).
Proof.
  unfold handleFile.
  destruct (fs !! path_join target name) as [[text|]|] eqn:Hf;
    [|reflexivity|reflexivity].
  destruct (editContent action text); simpl; [|reflexivity].
  destruct (decide (path_join target name = p)) as [<-|Hne].
  - now rewrite lookup_insert_eq, Hf.
  - now rewrite lookup_insert_ne.
Qed.

Lemma handleFiles_other action target names p : forall fs,
  ~ In p (map (path_join target) names) ->
  (handleFiles path_join action target names fs).1 !! p = fs !! p.
Proof.
  induction names as [|name rest IH]; intros fs Hnot; [reflexivity|].
  simpl in Hnot. simpl.
  pose proof (handleFile_other action target fs name p) as Hone.
  destruct (handleFile path_join action target fs name) as [fs' [u|e]]; simpl in *.
  - rewrite IH by tauto. apply Hone. intros ->. tauto.
  - apply Hone. intros ->. tauto.
Qed.

Lemma handleFiles_kind action target names p : forall fs,
  node_kind ((handleFiles path_join action target names fs).1 !! p) = node_kind (fs !! p).
Proof.
  induction names as [|name rest IH]; intros fs; [reflexivity|].
  simpl. pose proof (handleFile_kind action target fs name p) as Hone.
  destruct (handleFile path_join action target fs name) as [fs' [u|e]]; simpl in *.
  - now rewrite IH.
  - exact Hone.
Qed.


(** X12. [handle] touches only the files its patterns expand to: every
    other path of the file system is as before, whether the run succeeds or
    throws. *)
Theorem handle_touches_only_enumerated_files :
  forall (action : Edit) (target : string) (fs : gmap string Node) (p : string),
    ~ In p (map (path_join target) (relativeFileNames glob action target fs)) ->
    (handle path_join glob action target fs).1 !! p = fs !! p.
Proof. intros action target fs p Hnot. now apply handleFiles_other. Qed.

(** X13. [handle] creates no path, removes none, and never turns a
    directory into a file or a file into a directory: every path names the
    same kind of thing after the run. *)
Theorem handle_keeps_the_tree :
  forall (action : Edit) (target : string) (fs : gmap string Node) (p : string),
    node_kind ((handle path_join glob action target fs).1 !! p) = node_kind (fs !! p).
Proof. intros action target fs p. apply handleFiles_kind. Qed.



(** X16. Nullish editions change nothing: an action whose editions are all
    absent or return a nullish result, and which has no additions, leaves the
    whole file system as it was. *)
Theorem idle_action_changes_nothing :
  forall (action : Edit) (target : string) (fs : gmap string Node),
    Forall (fun e : Edition =>
              match e with
              | Some f => forall text, f text (preset action) = None
              | None => True
              end) (edition action) ->
    additions action = [] ->
    (forall text, applyEditions (preset action) (edition action) text = text)
    /\ handle path_join glob action target fs = (fs, Ok tt).
Proof.
  intros action target fs Hnull Hadd.
  assert (Hid : forall text,
            applyEditions (preset action) (edition action) text = text).
  { unfold applyEditions. induction Hnull as [|e es He _ IH]; intros text;
      [reflexivity|].
    simpl. unfold applyEdition at 2. destruct e as [f|]; [rewrite He|]; apply IH. }
  split; [exact Hid|].
  unfold handle.
  induction (relativeFileNames glob action target fs) as [|name rest IH];
    [reflexivity|].
  simpl. unfold handleFile.
  destruct (fs !! path_join target name) as [[text|]|] eqn:Hf; try exact IH.
  unfold editContent. rewrite Hadd, Hid. simpl.
  rewrite insert_id by exact Hf. exact IH.
Qed.


End HandleFacts.

Lemma handle_touches_only_enumerated_files_witness :
  (EditAction.handle examplePathJoin exampleGlob
     (exampleEdit ["b.txt"] EditHandler.IndentUnset) "/t" exampleTarget).1
    !! "/t/a.txt"
  = Some (RegularFile "a").
Proof.
  apply (handle_touches_only_enumerated_files (host := exampleHost)
           examplePathJoin exampleGlob
           (exampleEdit ["b.txt"] EditHandler.IndentUnset) "/t" exampleTarget
           "/t/a.txt").
  simpl. intros [H|[]]. discriminate H.
Defined.



Lemma idle_action_changes_nothing_witness :
  EditAction.handle examplePathJoin exampleGlob
    (idleEdit ["a.txt"; "dir"; "missing.txt"]) "/t" exampleTarget
  = (exampleTarget, Ok tt).
Proof.
  apply (proj2 (idle_action_changes_nothing (host := exampleHost)
           examplePathJoin exampleGlob
           (idleEdit ["a.txt"; "dir"; "missing.txt"]) "/t" exampleTarget
           ltac:(repeat constructor) eq_refl)).
Defined.


(** ** More on the line-addition engine *)

Section EngineEdges.
Context {host : Host}.
Import EditHandler.

Lemma loop_budget_outlasts re ai ordered lines : forall st,
  Z.of_nat (length lines) <= amountOfLinesBeforeAdding st ->
  exists st',
    loop re ai ordered st lines = Ok st' /\
    finalLines st' = finalLines st ++ lines.
Proof.
  induction lines as [|line rest IH]; intros st Hb.
  - exists st. split; [reflexivity|]. now rewrite app_nil_r.
  - simpl in Hb. cbn [loop]. unfold iteration.
    destruct (negb (line_match line re) && negb (hasMatch st)).
    + unfold bind at 1.
      edestruct IH as [st' [Hl Hf]]; [|exists st'; split; [exact Hl|]].
      * simpl. lia.
      * rewrite Hf. simpl. now rewrite <- app_assoc.
    + destruct (amountOfLinesBeforeAdding st >? 0) eqn:E;
        [|rewrite Z.gtb_ltb in E; apply Z.ltb_ge in E; lia].
      unfold bind at 1.
      edestruct IH as [st' [Hl Hf]]; [|exists st'; split; [exact Hl|]].
      * simpl. lia.
      * rewrite Hf. simpl. now rewrite <- app_assoc.
Qed.

Lemma loop_quiet re ai ordered pre rest : forall st,
  hasMatch st = false ->
  no_match re pre ->
  Z.of_nat (length rest) <= amountOfLinesBeforeAdding st ->
  exists st',
    loop re ai ordered st (pre ++ rest) = Ok st' /\
    finalLines st' = finalLines st ++ pre ++ rest.
Proof.
  induction pre as [|line pre IH]; intros st Hm Hno Hb.
  - now apply loop_budget_outlasts.
  - inversion Hno as [|? ? Hline Hpre]; subst.
    cbn [app loop]. unfold iteration. rewrite Hline, Hm. cbn [negb andb].
    unfold bind at 1.
    edestruct IH as [st' [Hl Hf]]; [| exact Hpre | | exists st'; split; [exact Hl|]].
    + reflexivity.
    + exact Hb.
    + rewrite Hf. simpl. now rewrite <- app_assoc.
Qed.

Lemma loop_raises re n ordered lines : forall st,
  n < 0 -> ordered <> [] ->
  amountOfLinesBeforeAdding st <= 0 ->
  Exists (fun line => line_match line re = true) lines ->
  loop re (IndentNumber n) ordered st lines = Throw RangeError.
Proof.
  intros st Hn Hne Hb Hex. revert st Hb.
  assert (Hthrow : forall line,
    mapM (indentedLine (IndentNumber n) line) ordered = Throw RangeError).
  { intros line. destruct ordered as [|c cs]; [congruence|].
    cbn [mapM]. unfold indentedLine. cbn [falsy].
    destruct (n =? 0) eqn:E0; [apply Z.eqb_eq in E0; lia|].
    unfold str_repeat. destruct (n <? 0) eqn:E1; [reflexivity|].
    apply Z.ltb_ge in E1. lia. }
  induction Hex as [line rest Hline|line rest _ IH]; intros st Hb.
  - cbn [loop]. unfold iteration. rewrite Hline. cbn [negb andb].
    destruct (amountOfLinesBeforeAdding st >? 0) eqn:E;
      [rewrite Z.gtb_ltb in E; apply Z.ltb_lt in E; lia|].
    now rewrite Hthrow.
  - cbn [loop]. unfold iteration.
    destruct (negb (line_match line re) && negb (hasMatch st)).
    + unfold bind at 1. apply IH. exact Hb.
    + destruct (amountOfLinesBeforeAdding st >? 0) eqn:E;
        [rewrite Z.gtb_ltb in E; apply Z.ltb_lt in E; lia|].
      now rewrite Hthrow.
Qed.

Lemma performLineAddition_loop preset text addition re :
  searchOf preset addition = Some re ->
  contentOf preset addition <> [] ->
  performLineAddition preset text addition =
    bind (loop re (indentOf preset addition)
            (orient (directionOf preset addition) (contentOf preset addition))
            {| finalLines := []; previousLine := "";
               hasMatch := false;
               amountOfLinesBeforeAdding := skipOf preset addition |}
            (orient (directionOf preset addition) (str_split LF text)))
         (fun st =>
            Ok (arr_join newline
                  (orient (directionOf preset addition) (finalLines st)))).
Proof.
  intros Hs Hcs. unfold performLineAddition.
  unfold searchOf in Hs. rewrite Hs.
  change (wrap (contextualizeValue preset (content addition)))
    with (contentOf preset addition).
  destruct (contentOf preset addition) as [|c cs]; [congruence|].
  change (length (c :: cs) =? 0)%nat with false. cbv iota.
  unfold orient, directionOf, indentOf, skipOf.
  destruct (is_above (contextualizeValue preset (direction addition)));
    reflexivity.
Qed.

End EngineEdges.

Import EditHandler.

(** X18. A skip count that is not used up by the lines from the first
    matching line to the end of the scan inserts nothing: the content is
    returned as it is, without any failure, whatever the indent. *)
Theorem unspent_skip_inserts_nothing :
  forall (host : Host) (preset : Preset) (text : string)
         (addition : LineAddition) (re : RegExp) (pre rest : list string),
    searchOf preset addition = Some re ->
    orient (directionOf preset addition) (str_split LF text) = pre ++ rest ->
    no_match re pre ->
    Z.of_nat (length rest) <= skipOf preset addition ->
    performLineAddition preset text addition = Ok text.
Proof.
  intros host preset text addition re pre rest Hs Hsplit Hpre Hk.
  destruct (contentOf preset addition) as [|c cs] eqn:Hc.
  { apply performLineAddition_guard. now right. }
  rewrite (performLineAddition_loop preset text addition re Hs)
    by (rewrite Hc; discriminate).
  rewrite Hsplit.
  edestruct (loop_quiet re (indentOf preset addition)
               (orient (directionOf preset addition) (contentOf preset addition))
               pre rest) as [st' [Hl Hf]];
    [| exact Hpre | | rewrite Hl].
  - reflexivity.
  - exact Hk.
  - simpl in *. rewrite Hf, <- Hsplit, orient_involutive. now rewrite join_split.
Qed.

Lemma unspent_skip_inserts_nothing_witness :
  performLineAddition (host := exampleHost) tt (nl ["a"; "b"; "c"])
    (exampleAddition "b" below ["X"] (IndentNumber (-1)) 2)
  = Ok (nl ["a"; "b"; "c"]).
Proof.
  apply (unspent_skip_inserts_nothing exampleHost tt (nl ["a"; "b"; "c"])
           (exampleAddition "b" below ["X"] (IndentNumber (-1)) 2) "b"
           ["a"] ["b"; "c"] eq_refl eq_refl ltac:(repeat constructor)).
  vm_compute. discriminate.
Defined.

(** X19. A negative number as indent makes the addition fail as soon as an
    insertion is due: with a pattern, content to add, no skip and a line
    that matches, [performLineAddition] throws a [RangeError] and returns no
    text. *)
Theorem negative_indent_throws :
  forall (host : Host) (preset : Preset) (text : string)
         (addition : LineAddition) (re : RegExp) (n : Z),
    searchOf preset addition = Some re ->
    contentOf preset addition <> [] ->
    skipOf preset addition <= 0 ->
    indentOf preset addition = IndentNumber n ->
    n < 0 ->
    Exists (fun line => line_match line re = true) (str_split LF text) ->
    performLineAddition preset text addition = Throw RangeError.
Proof.
  intros host preset text addition re n Hs Hcs Hk Hi Hn Hex.
  rewrite (performLineAddition_loop preset text addition re Hs Hcs).
  rewrite Hi, loop_raises; [reflexivity | exact Hn | | exact Hk |].
  - unfold orient. destruct (is_above _); [|exact Hcs].
    intros E. apply Hcs. rewrite <- (rev_involutive (contentOf preset addition)), E.
    reflexivity.
  - unfold orient. destruct (is_above _); [|exact Hex].
    now apply List.Exists_rev.
Qed.

Lemma negative_indent_throws_witness :
  performLineAddition (host := exampleHost) tt (nl ["a"; "  b"; "c"])
    (exampleAddition "b" above ["X"; "Y"] (IndentNumber (-2)) 0)
  = Throw RangeError.
Proof.
  apply (negative_indent_throws exampleHost tt (nl ["a"; "  b"; "c"])
           (exampleAddition "b" above ["X"; "Y"] (IndentNumber (-2)) 0) "b" (-2)
           eq_refl ltac:(discriminate) ltac:(vm_compute; discriminate) eq_refl
           ltac:(lia)).
  apply Exists_cons_tl, Exists_cons_hd. reflexivity.
Defined.







